(** * biketest: the bicycle state-space model and its Kalman observer

    A shallow embedding of [src/bicycle.cc], [src/bicycle/bicycle.cc],
    [src/bicycle/whipple.cc] and [inc/kalman.h].

    [model::real_t] is read as the field of real numbers [R]: sums, products
    and quotients are the exact ones, [std::fmod] is the exact remainder the
    C standard defines.  Eigen's fixed-size matrices are nested tuples whose
    sizes are part of the type, stored row by row. *)

From Stdlib Require Import Reals Lra ZArith Lia Bool List.
From stdpp Require Import base gmap.
Import ListNotations.
Open Scope R_scope.

(** ** Fixed-size vectors and matrices ([Eigen::Matrix<real_t, r, c>]) *)

Module Eigen.

Fixpoint tup (T : Type) (n : nat) : Type :=
  match n with
  | O => unit
  | S k => (T * tup T k)%type
  end.

Fixpoint tbuild {T : Type} (n : nat) (f : nat -> T) : tup T n :=
  match n with
  | O => tt
  | S k => (f O, tbuild k (fun i => f (S i)))
  end.

Fixpoint tnth {T : Type} {n : nat} (d : T) : tup T n -> nat -> T :=
  match n with
  | O => fun _ _ => d
  | S k => fun v i =>
      match i with
      | O => fst v
      | S j => tnth d (snd v) j
      end
  end.

Fixpoint tmap {T U : Type} {n : nat} (f : T -> U) : tup T n -> tup U n :=
  match n with
  | O => fun _ => tt
  | S k => fun v => (f (fst v), tmap f (snd v))
  end.

Fixpoint tmap2 {T U V : Type} {n : nat} (f : T -> U -> V)
  : tup T n -> tup U n -> tup V n :=
  match n with
  | O => fun _ _ => tt
  | S k => fun v w => (f (fst v) (fst w), tmap2 f (snd v) (snd w))
  end.

Fixpoint tfold {T : Type} {n : nat} (f : T -> R -> R) (a : R) : tup T n -> R :=
  match n with
  | O => fun _ => a
  | S k => fun v => f (fst v) (tfold f a (snd v))
  end.

Fixpoint tall {T : Type} {n : nat} (p : T -> bool) : tup T n -> bool :=
  match n with
  | O => fun _ => true
  | S k => fun v => p (fst v) && tall p (snd v)
  end.

Definition vec (n : nat) : Type := tup R n.
Definition mat (r c : nat) : Type := tup (vec c) r.

(** [v[i]], [A(i, j)]; the indices of the source are compile-time constants
    inside the bounds. *)
Definition vget {n : nat} (v : vec n) (i : nat) : R := tnth 0 v i.
Definition vset {n : nat} (v : vec n) (i : nat) (x : R) : vec n :=
  tbuild n (fun k => if Nat.eqb k i then x else vget v k).
Definition vbuild (n : nat) (f : nat -> R) : vec n := tbuild n f.

Definition vzero (n : nat) : vec n := vbuild n (fun _ => 0).
Definition vadd {n : nat} (v w : vec n) : vec n := tmap2 Rplus v w.
Definition vdot {n : nat} (v w : vec n) : R := tfold Rplus 0 (tmap2 Rmult v w).

(** [xout << x, u], [head<k>()], [segment<k>(i)], [tail<k>()]. *)
Definition vcat {n m : nat} (v : vec n) (w : vec m) : vec (n + m) :=
  vbuild (n + m) (fun k => if Nat.ltb k n then vget v k else vget w (k - n)).
Definition segment {n : nat} (k : nat) (v : vec n) (i : nat) : vec k :=
  vbuild k (fun a => vget v (i + a)).
Definition head {n : nat} (k : nat) (v : vec n) : vec k := segment k v 0.
Definition tail {n : nat} (k : nat) (v : vec n) : vec k := segment k v (n - k).
Definition set_segment {n k : nat} (v : vec n) (i : nat) (w : vec k) : vec n :=
  vbuild n (fun a =>
    if Nat.leb i a && Nat.ltb a (i + k) then vget w (a - i) else vget v a).

Definition mget {r c : nat} (A : mat r c) (i j : nat) : R :=
  vget (tnth (vzero c) A i) j.
Definition mbuild (r c : nat) (f : nat -> nat -> R) : mat r c :=
  tbuild r (fun i => vbuild c (f i)).
Definition mset {r c : nat} (A : mat r c) (i j : nat) (x : R) : mat r c :=
  mbuild r c (fun a b => if Nat.eqb a i && Nat.eqb b j then x else mget A a b).

Definition Zero (r c : nat) : mat r c := mbuild r c (fun _ _ => 0).
Definition Identity (r c : nat) : mat r c :=
  mbuild r c (fun i j => if Nat.eqb i j then 1 else 0).

Definition row {r c : nat} (A : mat r c) (i : nat) : vec c :=
  vbuild c (fun j => mget A i j).
Definition col {r c : nat} (A : mat r c) (j : nat) : vec r :=
  vbuild r (fun i => mget A i j).
Definition transpose {r c : nat} (A : mat r c) : mat c r :=
  mbuild c r (fun i j => mget A j i).

Definition madd {r c : nat} (A B : mat r c) : mat r c := tmap2 vadd A B.
Definition mscale {r c : nat} (s : R) (A : mat r c) : mat r c :=
  tmap (tmap (Rmult s)) A.
Definition mopp {r c : nat} (A : mat r c) : mat r c := tmap (tmap Ropp) A.
Definition mulv {r c : nat} (A : mat r c) (x : vec c) : vec r :=
  tmap (fun a => vdot a x) A.
Definition mmul {r k c : nat} (A : mat r k) (B : mat k c) : mat r c :=
  mbuild r c (fun i j => vdot (row A i) (col B j)).

(** [A.block<p, q>(i, j)] read and written, and the corner shorthands. *)
Definition block {r c : nat} (p q : nat) (A : mat r c) (i j : nat) : mat p q :=
  mbuild p q (fun a b => mget A (i + a) (j + b)).
Definition set_block {r c p q : nat} (A : mat r c) (i j : nat) (X : mat p q)
  : mat r c :=
  mbuild r c (fun a b =>
    if Nat.leb i a && Nat.ltb a (i + p) && Nat.leb j b && Nat.ltb b (j + q)
    then mget X (a - i) (b - j) else mget A a b).

Definition topLeftCorner {r c} (p q : nat) (A : mat r c) := block p q A 0 0.
Definition topRightCorner {r c} (p q : nat) (A : mat r c) := block p q A 0 (c - q).
Definition bottomLeftCorner {r c} (p q : nat) (A : mat r c) := block p q A (r - p) 0.
Definition bottomRightCorner {r c} (p q : nat) (A : mat r c) :=
  block p q A (r - p) (c - q).
Definition bottomRows {r c} (p : nat) (A : mat r c) := block p c A (r - p) 0.

(** [isMuchSmallerThan], [isApprox] on scalars and the matrix tests
    [isZero(prec)], [isIdentity(prec)] built on them. *)
Definition Rleb (x y : R) : bool := if Rle_dec x y then true else false.
Definition isMuchSmallerThan (x y prec : R) : bool :=
  Rleb (Rabs x) (Rabs y * prec).
Definition isApprox (x y prec : R) : bool :=
  Rleb (Rabs (x - y)) (Rmin (Rabs x) (Rabs y) * prec).
Definition isZero {r c : nat} (A : mat r c) (prec : R) : bool :=
  tall (tall (fun x => isMuchSmallerThan x 1 prec)) A.
Definition isIdentity {r c : nat} (A : mat r c) (prec : R) : bool :=
  forallb (fun i => forallb (fun j =>
      if Nat.eqb i j then isApprox (mget A i j) 1 prec
      else isMuchSmallerThan (mget A i j) 1 prec) (seq 0 c)) (seq 0 r).

(** [M.inverse()] of a fixed 2x2 matrix: adjugate over determinant. *)
Definition determinant (M : mat 2 2) : R :=
  mget M 0 0 * mget M 1 1 - mget M 0 1 * mget M 1 0.
Definition inverse (M : mat 2 2) : mat 2 2 :=
  let d := determinant M in
  (( mget M 1 1 / d, (- mget M 0 1 / d, tt)),
   ((- mget M 1 0 / d, (mget M 0 0 / d, tt)), tt)).

End Eigen.

(** ** [Eigen::LLT<Matrix2>]: the Cholesky factorisation [M = L * L^T]

    [compute] runs the unblocked in-place algorithm on the lower triangle and
    stops at the first non-positive pivot; [solve] substitutes forwards with
    [L] and backwards with [L^T].  A default-constructed decomposition holds
    no factor, and [solve] asserts that one is there. *)

Module LLT.
Import Eigen.

Definition llt_inplace (a : mat 2 2) : mat 2 2 :=
  let x0 := mget a 0 0 in
  if Rle_dec x0 0 then a
  else
    let l00 := sqrt x0 in
    let l10 := mget a 1 0 / l00 in
    let x1 := mget a 1 1 - l10 * l10 in
    if Rle_dec x1 0
    then ((l00, (mget a 0 1, tt)), ((l10, (mget a 1 1, tt)), tt))
    else ((l00, (mget a 0 1, tt)), ((l10, (sqrt x1, tt)), tt)).

Definition t : Type := option (mat 2 2).

Definition default : t := None.
Definition compute (a : mat 2 2) : t := Some (llt_inplace a).

Definition solve_vector (L : mat 2 2) (b : vec 2) : vec 2 :=
  let l00 := mget L 0 0 in
  let l10 := mget L 1 0 in
  let l11 := mget L 1 1 in
  let y0 := vget b 0 / l00 in
  let y1 := (vget b 1 - l10 * y0) / l11 in
  let x1 := y1 / l11 in
  let x0 := (y0 - l10 * x1) / l00 in
  (x0, (x1, tt)).

Definition solve_columns {c : nat} (L : mat 2 2) (b : mat 2 c) : mat 2 c :=
  transpose (tmap (solve_vector L) (transpose b)).

(** [None] is the failed assertion "LLT is not initialized". *)
Definition solve {c : nat} (llt : t) (b : mat 2 c) : option (mat 2 c) :=
  match llt with
  | None => None
  | Some L => Some (solve_columns L b)
  end.

Definition solve_vec (llt : t) (b : vec 2) : option (vec 2) :=
  match llt with
  | None => None
  | Some L => Some (solve_vector L b)
  end.

(** The invariant of the data model: symmetric and positive definite. *)
Definition spd (M : mat 2 2) : Prop :=
  mget M 0 1 = mget M 1 0 /\ 0 < mget M 0 0 /\ 0 < determinant M.

End LLT.

(** A failed [eigen_assert] aborts the call: fallible steps return [option]
    and are chained with [do]. *)
Notation "'do' x <- m ; k" :=
  (match m with Some x => k | None => None end)
  (at level 10, x name, m at level 100, k at level 200, only parsing).

(** ** [<cmath>] on [real_t] *)

Module Cmath.

(** The integer nearest to [r] that is not larger in magnitude. *)
Definition trunc (r : R) : Z :=
  if Rle_dec 0 r then Int_part r else (- Int_part (- r))%Z.

(** [std::fmod(x, y)]: [x - n*y] where [n] is [x/y] with its fractional part
    cut off. *)
Definition fmod (x y : R) : R := x - IZR (trunc (x / y)) * y.

End Cmath.

(** ** [model::Bicycle] of [src/bicycle/bicycle.cc] and [model::BicycleWhipple]
    of [src/bicycle/whipple.cc]

    [Linear<5, 2, 2, 2>]: n = 5 states, m = 2 inputs, l = 2 outputs, o = 2
    second-order coordinates; p = 4 auxiliary states. *)

Module Bicycle.
Import Eigen.

Definition n : nat := 5.
Definition m : nat := 2.
Definition l : nat := 2.
Definition o : nat := 2.
Definition p : nat := 4.

Definition state_t := vec n.
Definition input_t := vec m.
Definition output_t := vec l.
Definition measurement_t := output_t.
Definition auxiliary_state_t := vec p.
Definition state_matrix_t := mat n n.
Definition input_matrix_t := mat n m.
Definition output_matrix_t := mat l n.
Definition feedthrough_matrix_t := mat l m.
Definition second_order_matrix_t := mat o o.

Inductive state_index_t :=
  yaw_angle | roll_angle | steer_angle | roll_rate | steer_rate.
Inductive output_index_t := output_yaw_angle | output_steer_angle.
Inductive auxiliary_state_index_t :=
  aux_x | aux_y | aux_rear_wheel_angle | aux_pitch_angle.
Inductive full_state_index_t :=
  | full_x | full_y | full_rear_wheel_angle | full_pitch_angle
  | full_yaw_angle | full_roll_angle | full_steer_angle
  | full_roll_rate | full_steer_rate.

Definition index (e : state_index_t) : nat :=
  match e with
  | yaw_angle => 0 | roll_angle => 1 | steer_angle => 2
  | roll_rate => 3 | steer_rate => 4
  end.
Definition output_index (e : output_index_t) : nat :=
  match e with output_yaw_angle => 0 | output_steer_angle => 1 end.
Definition auxiliary_index (e : auxiliary_state_index_t) : nat :=
  match e with
  | aux_x => 0 | aux_y => 1 | aux_rear_wheel_angle => 2 | aux_pitch_angle => 3
  end.
Definition full_index (e : full_state_index_t) : nat :=
  match e with
  | full_x => 0 | full_y => 1 | full_rear_wheel_angle => 2
  | full_pitch_angle => 3 | full_yaw_angle => 4 | full_roll_angle => 5
  | full_steer_angle => 6 | full_roll_rate => 7 | full_steer_rate => 8
  end.

Definition is_auxiliary_state_field (field : full_state_index_t) : bool :=
  Nat.ltb (full_index field) p.

(** The data members of the class. *)
Record t := mk {
  m_v : R;
  m_M : second_order_matrix_t;
  m_C1 : second_order_matrix_t;
  m_K0 : second_order_matrix_t;
  m_K2 : second_order_matrix_t;
  m_w : R;
  m_c : R;
  m_lambda : R;
  m_rr : R;
  m_rf : R;
  m_d1 : R;
  m_d2 : R;
  m_d3 : R;
  m_recalculate_state_space : bool;
  m_recalculate_moore_parameters : bool;
  m_M_llt : LLT.t;
  m_A : state_matrix_t;
  m_B : input_matrix_t;
  m_C : output_matrix_t;
  m_D : feedthrough_matrix_t
}.

Definition with_v (b : t) (v : R) : t :=
  mk v (m_M b) (m_C1 b) (m_K0 b) (m_K2 b) (m_w b) (m_c b) (m_lambda b)
     (m_rr b) (m_rf b) (m_d1 b) (m_d2 b) (m_d3 b)
     (m_recalculate_state_space b) (m_recalculate_moore_parameters b)
     (m_M_llt b) (m_A b) (m_B b) (m_C b) (m_D b).
Definition with_M (b : t) (M : second_order_matrix_t) (llt : LLT.t) : t :=
  mk (m_v b) M (m_C1 b) (m_K0 b) (m_K2 b) (m_w b) (m_c b) (m_lambda b)
     (m_rr b) (m_rf b) (m_d1 b) (m_d2 b) (m_d3 b)
     (m_recalculate_state_space b) (m_recalculate_moore_parameters b)
     llt (m_A b) (m_B b) (m_C b) (m_D b).
Definition with_C1 (b : t) (C1 : second_order_matrix_t) : t :=
  mk (m_v b) (m_M b) C1 (m_K0 b) (m_K2 b) (m_w b) (m_c b) (m_lambda b)
     (m_rr b) (m_rf b) (m_d1 b) (m_d2 b) (m_d3 b)
     (m_recalculate_state_space b) (m_recalculate_moore_parameters b)
     (m_M_llt b) (m_A b) (m_B b) (m_C b) (m_D b).
Definition with_K0 (b : t) (K0 : second_order_matrix_t) : t :=
  mk (m_v b) (m_M b) (m_C1 b) K0 (m_K2 b) (m_w b) (m_c b) (m_lambda b)
     (m_rr b) (m_rf b) (m_d1 b) (m_d2 b) (m_d3 b)
     (m_recalculate_state_space b) (m_recalculate_moore_parameters b)
     (m_M_llt b) (m_A b) (m_B b) (m_C b) (m_D b).
Definition with_K2 (b : t) (K2 : second_order_matrix_t) : t :=
  mk (m_v b) (m_M b) (m_C1 b) (m_K0 b) K2 (m_w b) (m_c b) (m_lambda b)
     (m_rr b) (m_rf b) (m_d1 b) (m_d2 b) (m_d3 b)
     (m_recalculate_state_space b) (m_recalculate_moore_parameters b)
     (m_M_llt b) (m_A b) (m_B b) (m_C b) (m_D b).
Definition with_geometry (b : t) (w c lambda rr rf : R) : t :=
  mk (m_v b) (m_M b) (m_C1 b) (m_K0 b) (m_K2 b) w c lambda rr rf
     (m_d1 b) (m_d2 b) (m_d3 b)
     (m_recalculate_state_space b) (m_recalculate_moore_parameters b)
     (m_M_llt b) (m_A b) (m_B b) (m_C b) (m_D b).
Definition with_moore (b : t) (d1 d2 d3 : R) (recalculate : bool) : t :=
  mk (m_v b) (m_M b) (m_C1 b) (m_K0 b) (m_K2 b) (m_w b) (m_c b) (m_lambda b)
     (m_rr b) (m_rf b) d1 d2 d3
     (m_recalculate_state_space b) recalculate
     (m_M_llt b) (m_A b) (m_B b) (m_C b) (m_D b).
Definition with_recalculate_state_space (b : t) (flag : bool) : t :=
  mk (m_v b) (m_M b) (m_C1 b) (m_K0 b) (m_K2 b) (m_w b) (m_c b) (m_lambda b)
     (m_rr b) (m_rf b) (m_d1 b) (m_d2 b) (m_d3 b)
     flag (m_recalculate_moore_parameters b)
     (m_M_llt b) (m_A b) (m_B b) (m_C b) (m_D b).
Definition with_state_space (b : t) (A : state_matrix_t) (B : input_matrix_t)
  : t :=
  mk (m_v b) (m_M b) (m_C1 b) (m_K0 b) (m_K2 b) (m_w b) (m_c b) (m_lambda b)
     (m_rr b) (m_rf b) (m_d1 b) (m_d2 b) (m_d3 b)
     false (m_recalculate_moore_parameters b)
     (m_M_llt b) A B (m_C b) (m_D b).
Definition with_C (b : t) (C : output_matrix_t) : t :=
  mk (m_v b) (m_M b) (m_C1 b) (m_K0 b) (m_K2 b) (m_w b) (m_c b) (m_lambda b)
     (m_rr b) (m_rf b) (m_d1 b) (m_d2 b) (m_d3 b)
     (m_recalculate_state_space b) (m_recalculate_moore_parameters b)
     (m_M_llt b) (m_A b) (m_B b) C (m_D b).
Definition with_D (b : t) (D : feedthrough_matrix_t) : t :=
  mk (m_v b) (m_M b) (m_C1 b) (m_K0 b) (m_K2 b) (m_w b) (m_c b) (m_lambda b)
     (m_rr b) (m_rf b) (m_d1 b) (m_d2 b) (m_d3 b)
     (m_recalculate_state_space b) (m_recalculate_moore_parameters b)
     (m_M_llt b) (m_A b) (m_B b) (m_C b) D.

Definition calculate_output (b : t) (x : state_t) (u : input_t) : output_t :=
  vadd (mulv (m_C b) x) (mulv (m_D b) u).

Section Constants.

(** [constants::g] and [constants::two_pi] of [constants.h], the default
    output matrices of [parameters.h]. *)
Variable g : R.
Variable two_pi : R.
Variable default_C : output_matrix_t.
Variable default_D : feedthrough_matrix_t.

Definition set_state_space (b : t) : option t :=
  let A1 := mset (m_A b) 0 2 (m_v b * cos (m_lambda b) / m_w b) in
  let A2 := mset A1 0 4 (m_c b * cos (m_lambda b) / m_w b) in
  let A3 := set_block A2 1 3 (Identity o o) in
  do X <- LLT.solve (m_M_llt b)
            (madd (mscale g (m_K0 b)) (mscale (m_v b * m_v b) (m_K2 b)));
  let A4 := set_block A3 3 1 (mopp X) in
  do Y <- LLT.solve (m_M_llt b) (mscale (m_v b) (m_C1 b));
  let A5 := set_block A4 (n - o) (n - o) (mopp Y) in
  let B1 := set_block (m_B b) (n - o) 0 (inverse (m_M b)) in
  Some (with_state_space b A5 B1).

Definition set_moore_parameters (b : t) : t :=
  let d1 := cos (m_lambda b) * (m_c b + m_w b - m_rr b * tan (m_lambda b)) in
  let d3 := - cos (m_lambda b) * (m_c b - m_rf b * tan (m_lambda b)) in
  let d2 := (m_rr b + d1 * sin (m_lambda b) - m_rf b + d3 * sin (m_lambda b))
            / cos (m_lambda b) in
  with_moore b d1 d2 d3 false.

Definition set_v (b : t) (v : R) : option t :=
  set_state_space (with_v b v).

Definition set_M (b : t) (M : second_order_matrix_t)
    (recalculate_state_space : bool) : option t :=
  let b1 := with_M b M (LLT.compute M) in
  if recalculate_state_space then set_state_space b1
  else Some (with_recalculate_state_space b1 true).

Definition set_C1 (b : t) (C1 : second_order_matrix_t)
    (recalculate_state_space : bool) : option t :=
  let b1 := with_C1 b C1 in
  if recalculate_state_space then set_state_space b1
  else Some (with_recalculate_state_space b1 true).

Definition set_K0 (b : t) (K0 : second_order_matrix_t)
    (recalculate_state_space : bool) : option t :=
  let b1 := with_K0 b K0 in
  if recalculate_state_space then set_state_space b1
  else Some (with_recalculate_state_space b1 true).

Definition set_K2 (b : t) (K2 : second_order_matrix_t)
    (recalculate_state_space : bool) : option t :=
  let b1 := with_K2 b K2 in
  if recalculate_state_space then set_state_space b1
  else Some (with_recalculate_state_space b1 true).

Definition mark_both (b : t) : t :=
  with_moore (with_recalculate_state_space b true)
             (m_d1 b) (m_d2 b) (m_d3 b) true.
Definition mark_moore (b : t) : t :=
  with_moore b (m_d1 b) (m_d2 b) (m_d3 b) true.

Definition set_wheelbase (b : t) (w : R) (recalculate_parameters : bool)
  : option t :=
  let b1 := with_geometry b w (m_c b) (m_lambda b) (m_rr b) (m_rf b) in
  if recalculate_parameters then set_state_space (set_moore_parameters b1)
  else Some (mark_both b1).

Definition set_trail (b : t) (c : R) (recalculate_parameters : bool)
  : option t :=
  let b1 := with_geometry b (m_w b) c (m_lambda b) (m_rr b) (m_rf b) in
  if recalculate_parameters then set_state_space (set_moore_parameters b1)
  else Some (mark_both b1).

Definition set_steer_axis_tilt (b : t) (lambda : R)
    (recalculate_parameters : bool) : option t :=
  let b1 := with_geometry b (m_w b) (m_c b) lambda (m_rr b) (m_rf b) in
  if recalculate_parameters then set_state_space (set_moore_parameters b1)
  else Some (mark_both b1).

Definition set_rear_wheel_radius (b : t) (rr : R)
    (recalculate_moore_parameters : bool) : option t :=
  let b1 := with_geometry b (m_w b) (m_c b) (m_lambda b) rr (m_rf b) in
  if recalculate_moore_parameters then Some (set_moore_parameters b1)
  else Some (mark_moore b1).

Definition set_front_wheel_radius (b : t) (rf : R)
    (recalculate_moore_parameters : bool) : option t :=
  let b1 := with_geometry b (m_w b) (m_c b) (m_lambda b) (m_rr b) rf in
  if recalculate_moore_parameters then Some (set_moore_parameters b1)
  else Some (mark_moore b1).

Definition set_C (b : t) (C : output_matrix_t) : t := with_C b C.
Definition set_D (b : t) (D : feedthrough_matrix_t) : t := with_D b D.

(** The accessors hand out the stored members. *)
Definition A (b : t) : state_matrix_t := m_A b.
Definition B (b : t) : input_matrix_t := m_B b.
Definition C (b : t) : output_matrix_t := m_C b.
Definition D (b : t) : feedthrough_matrix_t := m_D b.
Definition M (b : t) : second_order_matrix_t := m_M b.
Definition C1 (b : t) : second_order_matrix_t := m_C1 b.
Definition K0 (b : t) : second_order_matrix_t := m_K0 b.
Definition K2 (b : t) : second_order_matrix_t := m_K2 b.
Definition wheelbase (b : t) : R := m_w b.
Definition trail (b : t) : R := m_c b.
Definition steer_axis_tilt (b : t) : R := m_lambda b.
Definition rear_wheel_radius (b : t) : R := m_rr b.
Definition front_wheel_radius (b : t) : R := m_rf b.
Definition v (b : t) : R := m_v b.
Definition need_recalculate_state_space (b : t) : bool :=
  m_recalculate_state_space b.
Definition need_recalculate_moore_parameters (b : t) : bool :=
  m_recalculate_moore_parameters b.

Definition normalize_state (x : state_t) : state_t :=
  let yaw_index := index yaw_angle in
  let roll_index := index roll_angle in
  let steer_index := index steer_angle in
  let normalized_x := x in
  let normalized_x :=
    vset normalized_x yaw_index (Cmath.fmod (vget x yaw_index) two_pi) in
  let normalized_x :=
    vset normalized_x roll_index (Cmath.fmod (vget x roll_index) two_pi) in
  let normalized_x :=
    vset normalized_x steer_index (Cmath.fmod (vget x steer_index) two_pi) in
  normalized_x.

Definition normalize_output (y : output_t) : output_t :=
  let yaw_index := output_index output_yaw_angle in
  let steer_index := output_index output_steer_angle in
  let normalized_y := y in
  let normalized_y :=
    vset normalized_y yaw_index (Cmath.fmod (vget y yaw_index) two_pi) in
  let normalized_y :=
    vset normalized_y steer_index (Cmath.fmod (vget y steer_index) two_pi) in
  normalized_y.

Definition normalize_auxiliary_state (x_aux : auxiliary_state_t)
  : auxiliary_state_t :=
  let rear_wheel_index := auxiliary_index aux_rear_wheel_angle in
  let pitch_index := auxiliary_index aux_pitch_angle in
  let normalized_x_aux := x_aux in
  let normalized_x_aux :=
    vset normalized_x_aux rear_wheel_index
         (Cmath.fmod (vget x_aux rear_wheel_index) two_pi) in
  let normalized_x_aux :=
    vset normalized_x_aux pitch_index
         (Cmath.fmod (vget x_aux pitch_index) two_pi) in
  normalized_x_aux.

(** The constructor: the members of the initialiser list, then
    [set_moore_parameters(); set_v(v);].  [m_M_llt] is not in the list and
    nothing in the body computes it.  The members the two calls write
    first ([m_v], [m_d1], [m_d2], [m_d3]) start at a placeholder. *)
Definition Bicycle (M C1 K0 K2 : second_order_matrix_t)
    (wheelbase trail steer_axis_tilt rear_wheel_radius front_wheel_radius : R)
    (v : R) : option t :=
  let b0 := mk 0 M C1 K0 K2 wheelbase trail steer_axis_tilt
               rear_wheel_radius front_wheel_radius 0 0 0
               true true LLT.default (Zero n n) (Zero n m)
               default_C default_D in
  set_v (set_moore_parameters b0) v.

(** [BicycleWhipple]'s constructor forwards to the one above. *)
Definition BicycleWhipple := Bicycle.

Section Stepper.

(** [boost::numeric::odeint::runge_kutta_dopri5::do_step(system, x, t, dt)]
    on the [n + m] vector, with the stepper's own memory threaded through. *)
Variable stepper_t : Type.
Variable do_step :
  stepper_t -> (vec (n + m) -> R -> option (vec (n + m))) ->
  vec (n + m) -> R -> R -> option (vec (n + m) * stepper_t).

(** The right-hand side [integrate_state] hands to the stepper. *)
Definition whipple_system (b : t) (xu : vec (n + m)) (time : R)
  : option (vec (n + m)) :=
  let dxdt := set_segment (vzero (n + m)) 0 (mulv (m_A b) (head n xu)) in
  do Mu <- LLT.solve_vec (m_M_llt b) (segment o xu n);
  let dxdt := set_segment dxdt (n - o) (vadd (segment o dxdt (n - o)) Mu) in
  let dxdt := set_segment dxdt n (vzero m) in
  Some dxdt.

Definition integrate_state (b : t) (stepper : stepper_t) (time : R)
    (x : state_t) (u : input_t) (z : measurement_t)
  : option (state_t * stepper_t) :=
  let xout := vcat x u in
  do r <- do_step stepper (whipple_system b) xout 0 time;
  Some (head n (fst r), snd r).

End Stepper.

End Constants.

End Bicycle.

(** ** [model::Bicycle] of [src/bicycle.cc]: the class with the discrete-time
    matrices [Ad], [Bd] and the look-up table of precomputed pairs *)

Module DiscreteBicycle.
Import Eigen.

Definition n : nat := 5.
Definition m : nat := 2.
Definition l : nat := 2.
Definition o : nat := 2.

Definition state_t := vec n.
Definition input_t := vec m.
Definition output_t := vec l.
Definition state_matrix_t := mat n n.
Definition input_matrix_t := mat n m.
Definition output_matrix_t := mat l n.
Definition feedthrough_matrix_t := mat l m.
Definition second_order_matrix_t := mat o o.
Definition discretization_matrix_t := mat (n + m) (n + m).

(** What [set_v_dt] writes to [std::cout]. *)
Inductive message :=
  | Discretization_validation_failed (v dt : R).

Section Model.

(** [state_space_map_key_t] and [make_state_space_map_key] live in the
    header; the table is a map from keys to pairs [(Ad, Bd)]. *)
Context {state_space_map_key_t : Type}.
Context `{Countable state_space_map_key_t}.
Variable make_state_space_map_key : R -> R -> state_space_map_key_t.

(** [constants::g]; [Eigen::NumTraits<real_t>::dummy_precision()]; the
    matrix exponential [AT.exp()] of Eigen's MatrixFunctions. *)
Variable g : R.
Variable discretization_precision : R.
Variable exp : discretization_matrix_t -> discretization_matrix_t.

Record t := mk {
  m_v : R;
  m_dt : R;
  m_M : second_order_matrix_t;
  m_C1 : second_order_matrix_t;
  m_K0 : second_order_matrix_t;
  m_K2 : second_order_matrix_t;
  m_K : second_order_matrix_t;
  m_w : R;
  m_c : R;
  m_lambda : R;
  m_rr : R;
  m_rf : R;
  m_d1 : R;
  m_d2 : R;
  m_d3 : R;
  m_recalculate_state_space : bool;
  m_recalculate_moore_parameters : bool;
  m_M_llt : LLT.t;
  m_A : state_matrix_t;
  m_B : input_matrix_t;
  m_Ad : state_matrix_t;
  m_Bd : input_matrix_t;
  m_C : output_matrix_t;
  m_D : feedthrough_matrix_t;
  (** a pointer to a table the caller owns, or [nullptr] *)
  m_discrete_state_space_map :
    option (gmap state_space_map_key_t (state_matrix_t * input_matrix_t))
}.

Definition with_moore (b : t) (d1 d2 d3 : R) : t :=
  mk (m_v b) (m_dt b) (m_M b) (m_C1 b) (m_K0 b) (m_K2 b) (m_K b)
     (m_w b) (m_c b) (m_lambda b) (m_rr b) (m_rf b) d1 d2 d3
     (m_recalculate_state_space b) false
     (m_M_llt b) (m_A b) (m_B b) (m_Ad b) (m_Bd b) (m_C b) (m_D b)
     (m_discrete_state_space_map b).
Definition with_matrices (b : t) (llt : LLT.t)
    (A : state_matrix_t) (B : input_matrix_t)
    (Ad : state_matrix_t) (Bd : input_matrix_t) : t :=
  mk (m_v b) (m_dt b) (m_M b) (m_C1 b) (m_K0 b) (m_K2 b) (m_K b)
     (m_w b) (m_c b) (m_lambda b) (m_rr b) (m_rf b)
     (m_d1 b) (m_d2 b) (m_d3 b)
     (m_recalculate_state_space b) (m_recalculate_moore_parameters b)
     llt A B Ad Bd (m_C b) (m_D b)
     (m_discrete_state_space_map b).
Definition with_v_dt_K (b : t) (v dt : R) (K : second_order_matrix_t) : t :=
  mk v dt (m_M b) (m_C1 b) (m_K0 b) (m_K2 b) K
     (m_w b) (m_c b) (m_lambda b) (m_rr b) (m_rf b)
     (m_d1 b) (m_d2 b) (m_d3 b)
     (m_recalculate_state_space b) (m_recalculate_moore_parameters b)
     (m_M_llt b) (m_A b) (m_B b) (m_Ad b) (m_Bd b) (m_C b) (m_D b)
     (m_discrete_state_space_map b).
Definition with_recalculate_state_space (b : t) (flag : bool) : t :=
  mk (m_v b) (m_dt b) (m_M b) (m_C1 b) (m_K0 b) (m_K2 b) (m_K b)
     (m_w b) (m_c b) (m_lambda b) (m_rr b) (m_rf b)
     (m_d1 b) (m_d2 b) (m_d3 b)
     flag (m_recalculate_moore_parameters b)
     (m_M_llt b) (m_A b) (m_B b) (m_Ad b) (m_Bd b) (m_C b) (m_D b)
     (m_discrete_state_space_map b).

Definition with_A (b : t) (A : state_matrix_t) : t :=
  with_matrices b (m_M_llt b) A (m_B b) (m_Ad b) (m_Bd b).
Definition with_B (b : t) (B : input_matrix_t) : t :=
  with_matrices b (m_M_llt b) (m_A b) B (m_Ad b) (m_Bd b).
Definition with_Ad_Bd (b : t) (Ad : state_matrix_t) (Bd : input_matrix_t) : t :=
  with_matrices b (m_M_llt b) (m_A b) (m_B b) Ad Bd.

(** The three overloads of [update_state] and the two of
    [calculate_output]. *)
Definition update_state_xu (b : t) (x : state_t) (u : input_t) : state_t :=
  vadd (mulv (m_Ad b) x) (mulv (m_Bd b) u).
Definition update_state (b : t) (x : state_t) (u : input_t) (z : output_t)
  : state_t :=
  update_state_xu b x u.
Definition update_state_x (b : t) (x : state_t) : state_t :=
  mulv (m_Ad b) x.
Definition calculate_output (b : t) (x : state_t) (u : input_t) : output_t :=
  vadd (mulv (m_C b) x) (mulv (m_D b) u).
Definition calculate_output_x (b : t) (x : state_t) : output_t :=
  mulv (m_C b) x.

Definition initialize_state_space_matrices (b : t) : t :=
  let A := Zero n n in
  let B := Zero n m in
  let Ad := Zero n n in
  let Bd := Zero n m in
  let A := mset A 0 4 (m_c b * cos (m_lambda b) / m_w b) in
  let A := set_block A 1 3 (Identity o o) in
  let B := set_block B 0 0 (Zero o o) in
  with_matrices b (LLT.compute (m_M b)) A B Ad Bd.

Definition discrete_state_space_lookup (b : t) (k : state_space_map_key_t)
  : bool * t :=
  match m_discrete_state_space_map b with
  | None => (false, b)
  | Some table =>
      match table !! k with
      | None => (false, b)
      | Some search => (true, with_Ad_Bd b (fst search) (snd search))
      end
  end.

Definition set_v_dt (b : t) (v dt : R) : option (t * list message) :=
  let b := if m_recalculate_state_space b
           then initialize_state_space_matrices b else b in
  let b := with_v_dt_K b v dt
             (madd (mscale g (m_K0 b)) (mscale (v * v) (m_K2 b))) in
  let b := with_A b (mset (m_A b) 0 2 (v * cos (m_lambda b) / m_w b)) in
  do X <- LLT.solve (m_M_llt b) (m_K b);
  let b := with_A b (set_block (m_A b) 3 1 (mopp X)) in
  do Y <- LLT.solve (m_M_llt b) (mscale v (m_C1 b));
  let b := with_A b (set_block (m_A b) (n - o) (n - o) (mopp Y)) in
  do B <- (if Nat.ltb o 5 then Some (inverse (m_M b))
           else LLT.solve (m_M_llt b) (Identity o o));
  let b := with_B b (set_block (m_B b) (n - o) 0 B) in
  let '(b, out) :=
    if Req_dec_T dt 0
    then (with_Ad_Bd b (Identity n n) (Zero n m), [])
    else
      let k := make_state_space_map_key v dt in
      let '(found, b) := discrete_state_space_lookup b k in
      if found then (b, [])
      else
        let AT := Zero (n + m) (n + m) in
        let AT := set_block AT 0 0 (m_A b) in
        let AT := set_block AT 0 (n + m - m) (m_B b) in
        let AT := mscale dt AT in
        let T := exp AT in
        let out :=
          if negb (isZero (bottomLeftCorner m n T) discretization_precision)
             || negb (isIdentity (bottomRightCorner m m T)
                                 discretization_precision)
          then [Discretization_validation_failed v dt] else [] in
        (with_Ad_Bd b (topLeftCorner n n T) (topRightCorner n m T), out) in
  Some (with_recalculate_state_space b false, out).

Definition set_state_space (b : t) : option (t * list message) :=
  set_v_dt b (m_v b) (m_dt b).

(** What [set_v_dt] needs to get past its solves: the flag is up (it then
    factors [m_M] first) or a factor is there already. *)
Definition factor_available (b : t) : Prop :=
  m_recalculate_state_space b = true \/ m_M_llt b <> None.

Definition set_moore_parameters (b : t) : t :=
  let d1 := cos (m_lambda b) * (m_c b + m_w b - m_rr b * tan (m_lambda b)) in
  let d3 := - cos (m_lambda b) * (m_c b - m_rf b * tan (m_lambda b)) in
  let d2 := (m_rr b + d1 * sin (m_lambda b) - m_rf b + d3 * sin (m_lambda b))
            / cos (m_lambda b) in
  with_moore b d1 d2 d3.

(** The constructor.  The members outside the initialiser list are written
    by [set_moore_parameters] and by [set_v_dt] (which, the flag being set,
    starts with [initialize_state_space_matrices]) before anything reads
    them; they start at a placeholder. *)
Definition Bicycle (M C1 K0 K2 : second_order_matrix_t)
    (wheelbase trail steer_axis_tilt rear_wheel_radius front_wheel_radius : R)
    (v dt : R)
    (default_C : output_matrix_t) (default_D : feedthrough_matrix_t)
    (discrete_state_space_map :
       option (gmap state_space_map_key_t (state_matrix_t * input_matrix_t)))
  : option (t * list message) :=
  let b0 := mk 0 0 M C1 K0 K2 (Zero o o)
               wheelbase trail steer_axis_tilt
               rear_wheel_radius front_wheel_radius 0 0 0
               true true LLT.default
               (Zero n n) (Zero n m) (Zero n n) (Zero n m)
               default_C default_D discrete_state_space_map in
  set_v_dt (set_moore_parameters b0) v dt.

(** [calculate_handlebar_feedback_torque]. *)
Definition calculate_handlebar_feedback_torque (b : t) (x : state_t)
    (u : input_t) : R :=
  let steer_accel_index := 4%nat in
  let steer_acceleration :=
    vdot (row (m_A b) steer_accel_index) x
    + vdot (row (m_B b) steer_accel_index) u in
  steer_acceleration - vget u 1.

End Model.

End DiscreteBicycle.

(** ** [observer::Kalman<T>] of [inc/kalman.h]

    The header declares the data members and the member functions; their
    bodies are in [kalman.hh]. *)

Module Kalman.
Import Eigen.

(** Modelled from the spec: the direct solve with the innovation covariance
    ("computed via a numerically stable solve rather than explicit inversion
    of S"; the decomposition that does it is in [kalman.hh]).  [inverse_S S]
    is the matrix the solve multiplies by: for every invertible [S], the
    inverse of [S]. *)
Class InnovationSolve (l : nat) := {
  inverse_S : mat l l -> mat l l;
  inverse_S_inverts : forall S X : mat l l,
    mmul X S = Identity l l -> mmul S X = Identity l l -> inverse_S S = X
}.

(** Modelled from the spec: what the filter asks of the system it wraps
    (the LinearSystem contract of [discrete_linear.h]): the discrete state
    matrix A, the output matrix C, [advance(x)], [advance(x, u)], the output
    map without input and the sample time. *)
Class DiscreteLinear (T : Type) (n m l : nat) := {
  system_A : T -> mat n n;
  system_C : T -> mat l n;
  advance : T -> vec n -> vec n;
  advance_u : T -> vec n -> vec m -> vec n;
  output : T -> vec n -> vec l;
  system_dt : T -> R
}.

Section Filter.

Context {T : Type} {n m l : nat} `{DiscreteLinear T n m l}
        `{InnovationSolve l}.

Definition state_t := vec n.
Definition input_t := vec m.
Definition measurement_t := vec l.
Definition kalman_gain_t := mat n l.
Definition error_covariance_t := mat n n.
Definition process_noise_covariance_t := mat n n.
Definition measurement_noise_covariance_t := mat l l.

Record t := mk {
  m_system : T;
  m_x : state_t;
  m_K : kalman_gain_t;
  m_P : error_covariance_t;
  m_Q : process_noise_covariance_t;
  m_R : measurement_noise_covariance_t
}.

(** The constructor initialises every member but [m_K], which the first
    measurement update writes; it starts at the value given here. *)
Definition Kalman (system : T) (Q : process_noise_covariance_t)
    (R : measurement_noise_covariance_t) (x0 : state_t)
    (P0 : error_covariance_t) (K0 : kalman_gain_t) : t :=
  mk system x0 K0 P0 Q R.

Definition system (k : t) : T := m_system k.
Definition x (k : t) : state_t := m_x k.
Definition K (k : t) : kalman_gain_t := m_K k.
Definition P (k : t) : error_covariance_t := m_P k.
Definition Q (k : t) : process_noise_covariance_t := m_Q k.
Definition R (k : t) : measurement_noise_covariance_t := m_R k.
Definition dt (k : t) : Rdefinitions.R := system_dt (m_system k).

Definition with_x (k : t) (x : state_t) : t :=
  mk (m_system k) x (m_K k) (m_P k) (m_Q k) (m_R k).
Definition with_K (k : t) (K : kalman_gain_t) : t :=
  mk (m_system k) (m_x k) K (m_P k) (m_Q k) (m_R k).
Definition with_P (k : t) (P : error_covariance_t) : t :=
  mk (m_system k) (m_x k) (m_K k) P (m_Q k) (m_R k).

(** Modelled from the spec: the bodies of [kalman.hh].  Time update:
    x <- advance(x, u), or advance(x) without input; P <- A P A^T + Q. *)
Definition time_update_state (k : t) : t :=
  with_x k (advance (m_system k) (m_x k)).
Definition time_update_state_u (k : t) (u : input_t) : t :=
  with_x k (advance_u (m_system k) (m_x k) u).
Definition time_update_error_covariance_Q (k : t)
    (Q : process_noise_covariance_t) : t :=
  let A := system_A (m_system k) in
  with_P k (madd (mmul (mmul A (m_P k)) (transpose A)) Q).
Definition time_update_error_covariance (k : t) : t :=
  time_update_error_covariance_Q k (m_Q k).

Definition time_update (k : t) : t :=
  time_update_error_covariance (time_update_state k).
Definition time_update_Q (k : t) (Q : process_noise_covariance_t) : t :=
  time_update_error_covariance_Q (time_update_state k) Q.
Definition time_update_u (k : t) (u : input_t) : t :=
  time_update_error_covariance (time_update_state_u k u).
Definition time_update_u_Q (k : t) (u : input_t)
    (Q : process_noise_covariance_t) : t :=
  time_update_error_covariance_Q (time_update_state_u k u) Q.

(** Modelled from the spec: the measurement update of [kalman.hh]:
    S = C P C^T + R, K = P C^T S^-1, x <- x + K (z - output(x)),
    P <- (I - K C) P. *)
Definition measurement_update_kalman_gain_R (k : t)
    (R : measurement_noise_covariance_t) : t :=
  let C := system_C (m_system k) in
  let S := madd (mmul (mmul C (m_P k)) (transpose C)) R in
  with_K k (mmul (mmul (m_P k) (transpose C)) (inverse_S S)).


End Filter.

End Kalman.

(** [observer::Kalman<model::Bicycle>]: the discrete bicycle as the system of
    the filter. *)
#[export] Instance DiscreteBicycle_system
    {state_space_map_key_t : Type} `{Countable state_space_map_key_t} :
  Kalman.DiscreteLinear
    (DiscreteBicycle.t (state_space_map_key_t := state_space_map_key_t))
    DiscreteBicycle.n DiscreteBicycle.m DiscreteBicycle.l := {
  Kalman.system_A := DiscreteBicycle.m_Ad;
  Kalman.system_C := DiscreteBicycle.m_C;
  Kalman.advance := DiscreteBicycle.update_state_x;
  Kalman.advance_u := DiscreteBicycle.update_state_xu;
  Kalman.output := DiscreteBicycle.calculate_output_x;
  Kalman.system_dt := DiscreteBicycle.m_dt
}.

(** The solve for the two outputs of the bicycle: [S.inverse()] of the fixed
    2x2 matrix, which is the inverse wherever there is one. *)
#[export] Program Instance inverse_solve : Kalman.InnovationSolve 2 := {
  Kalman.inverse_S := Eigen.inverse
}.
Next Obligation.
  intros S X HL HR.
  destruct S as [[s00 [s01 []]] [[s10 [s11 []]] []]].
  destruct X as [[x00 [x01 []]] [[x10 [x11 []]] []]].
  cbv [Eigen.mmul Eigen.mbuild Eigen.tbuild Eigen.vbuild Eigen.vdot
       Eigen.tfold Eigen.tmap2 Eigen.row Eigen.col Eigen.mget Eigen.vget
       Eigen.tnth Eigen.vzero Eigen.Identity Nat.eqb fst snd] in HL, HR.
  injection HL as L00 L01 L10 L11. injection HR as R00 R01 R10 R11.
  assert (Hd : s00 * s11 - s01 * s10 <> 0).
  { intros E.
    assert (F : (x00 * x11 - x01 * x10) * (s00 * s11 - s01 * s10) = 1).
    { transitivity ((x00 * s00 + (x01 * s10 + 0)) * (x10 * s01 + (x11 * s11 + 0))
                    - (x00 * s01 + (x01 * s11 + 0)) * (x10 * s00 + (x11 * s10 + 0))).
      - ring.
      - rewrite L00, L01, L10, L11. ring. }
    rewrite E in F. lra. }
  cbv [Eigen.inverse Eigen.determinant Eigen.mget Eigen.vget Eigen.tnth
       Eigen.vzero Eigen.vbuild Eigen.tbuild fst snd].
  assert (E00 : s11 / (s00 * s11 - s01 * s10) = x00).
  { apply Rmult_eq_reg_r with (r := s00 * s11 - s01 * s10); [|exact Hd].
    transitivity (s11 * (x00 * s00 + (x01 * s10 + 0))
                  - s10 * (x00 * s01 + (x01 * s11 + 0))).
    - rewrite L00, L01. field. exact Hd.
    - ring. }
  assert (E01 : - s01 / (s00 * s11 - s01 * s10) = x01).
  { apply Rmult_eq_reg_r with (r := s00 * s11 - s01 * s10); [|exact Hd].
    transitivity (s00 * (x00 * s01 + (x01 * s11 + 0))
                  - s01 * (x00 * s00 + (x01 * s10 + 0))).
    - rewrite L00, L01. field. exact Hd.
    - ring. }
  assert (E10 : - s10 / (s00 * s11 - s01 * s10) = x10).
  { apply Rmult_eq_reg_r with (r := s00 * s11 - s01 * s10); [|exact Hd].
    transitivity (s11 * (x10 * s00 + (x11 * s10 + 0))
                  - s10 * (x10 * s01 + (x11 * s11 + 0))).
    - rewrite L10, L11. field. exact Hd.
    - ring. }
  assert (E11 : s00 / (s00 * s11 - s01 * s10) = x11).
  { apply Rmult_eq_reg_r with (r := s00 * s11 - s01 * s10); [|exact Hd].
    transitivity (s00 * (x10 * s01 + (x11 * s11 + 0))
                  - s01 * (x10 * s00 + (x11 * s10 + 0))).
    - rewrite L10, L11. field. exact Hd.
    - ring. }
  rewrite E00, E01, E10, E11. reflexivity.
Qed.

(** ** Objects the statements below are run on *)

Module Examples.
Import Eigen.

(** The default output matrices: yaw angle and steer angle, no feedthrough. *)
Definition C_yaw_steer : mat 2 5 :=
  ((1, (0, (0, (0, (0, tt))))), ((0, (0, (1, (0, (0, tt))))), tt)).
Definition D_none : mat 2 2 := Zero 2 2.

(** A bicycle of unit mass matrix, unit wheelbase and unit speed, without
    damping or stiffness, whose state-space matrices are up to date. *)
Definition unit_bicycle : Bicycle.t :=
  Bicycle.mk 1 (Identity 2 2) (Zero 2 2) (Zero 2 2) (Zero 2 2)
             1 0 0 1 1 1 0 0 false false
             (LLT.compute (Identity 2 2))
             ((0, (0, (1, (0, (0, tt))))),
              ((0, (0, (0, (1, (0, tt))))),
               ((0, (0, (0, (0, (1, tt))))),
                ((0, (0, (0, (0, (0, tt))))),
                 ((0, (0, (0, (0, (0, tt))))), tt)))))
             ((0, (0, tt)), ((0, (0, tt)), ((0, (0, tt)),
              ((1, (0, tt)), ((0, (1, tt)), tt)))))
             C_yaw_steer D_none.

(** The same bicycle after [set_C1(Identity, false)]. *)
Definition unit_bicycle_dirty : Bicycle.t :=
  Bicycle.with_recalculate_state_space
    (Bicycle.with_C1 unit_bicycle (Identity 2 2)) true.

(** The table of the look-up test: a speed, the sample time 1/200 and a
    pair of matrices that is plainly not a discretisation.  The key function
    stands in for [make_state_space_map_key]. *)
Definition vw : R := 429238253634111 / 100000000000000.
Definition dt : R := 1 / 200.
Definition Ad_vw : mat 5 5 := mscale 2 (Identity 5 5).
Definition Bd_vw : mat 5 2 := mscale 3 (Identity 5 2).
Definition example_key (v dt : R) : Z * Z :=
  (Int_part (v * 1000), Int_part (dt * 1000000)).
Definition state_space_map : gmap (Z * Z) (mat 5 5 * mat 5 2) :=
  {[ example_key vw dt := (Ad_vw, Bd_vw) ]}.

(** A discrete bicycle as the constructor's initialiser list leaves it,
    pointing at that table; and the same one without a table. *)
Definition unit_discrete_bicycle : DiscreteBicycle.t :=
  DiscreteBicycle.mk 0 0 (Identity 2 2) (Zero 2 2) (Zero 2 2) (Zero 2 2)
    (Zero 2 2) 1 0 0 1 1 0 0 0 true true LLT.default
    (Zero 5 5) (Zero 5 2) (Zero 5 5) (Zero 5 2)
    C_yaw_steer D_none (Some state_space_map).

End Examples.

(** ** The rest of [src/bicycle/bicycle.cc]: the right-hand side of the
    auxiliary integration *)

Module BicycleAuxiliary.
Import Eigen Bicycle.

Definition full_state_t := vec (p + n).

(** The closure [integrate_auxiliary_state] hands to its stepper: it writes
    the derivative of the full state into [dxdt], whose previous content is
    an argument here. *)
Definition auxiliary_system (b : t) (x : full_state_t) (dxdt : full_state_t)
    (time : R) : full_state_t :=
  let dxdt := vset dxdt (full_index full_x)
                (m_v b * cos (vget x (full_index full_yaw_angle))) in
  let dxdt := vset dxdt (full_index full_y)
                (m_v b * sin (vget x (full_index full_yaw_angle))) in
  let dxdt := vset dxdt (full_index full_rear_wheel_angle)
                (- m_v b / m_rr b) in
  set_segment dxdt (p + n - (n + 1)) (vzero (n + 1)).

End BicycleAuxiliary.

(** ** [set_v_dt] of [src/bicycle.cc] in two halves

    The statements about [set_v_dt] go through its two halves: the
    continuous-time matrices (up to the test on [dt]) and the discrete-time
    ones (the test on [dt] and what follows). *)

Module DiscreteBicycleParts.
Import Eigen DiscreteBicycle.

Section Parts.

Context {state_space_map_key_t : Type}.
Context `{Countable state_space_map_key_t}.
Variable make_state_space_map_key : R -> R -> state_space_map_key_t.
Variable g : R.
Variable discretization_precision : R.
Variable exp : discretization_matrix_t -> discretization_matrix_t.

Definition continuous_part
    (b : DiscreteBicycle.t (state_space_map_key_t := state_space_map_key_t))
    (v dt : R) : option DiscreteBicycle.t :=
  let b := if m_recalculate_state_space b
           then initialize_state_space_matrices b else b in
  let b := with_v_dt_K b v dt
             (madd (mscale g (m_K0 b)) (mscale (v * v) (m_K2 b))) in
  let b := with_A b (mset (m_A b) 0 2 (v * cos (m_lambda b) / m_w b)) in
  do X <- LLT.solve (m_M_llt b) (m_K b);
  let b := with_A b (set_block (m_A b) 3 1 (mopp X)) in
  do Y <- LLT.solve (m_M_llt b) (mscale v (m_C1 b));
  let b := with_A b (set_block (m_A b) (n - o) (n - o) (mopp Y)) in
  do B <- (if Nat.ltb o 5 then Some (inverse (m_M b))
           else LLT.solve (m_M_llt b) (Identity o o));
  Some (with_B b (set_block (m_B b) (n - o) 0 B)).

(** The augmented matrix [[A, B], [0, 0]] scaled by [dt]. *)
Definition augmented
    (b : DiscreteBicycle.t (state_space_map_key_t := state_space_map_key_t))
    (dt : R) : discretization_matrix_t :=
  let AT := Zero (n + m) (n + m) in
  let AT := set_block AT 0 0 (m_A b) in
  let AT := set_block AT 0 (n + m - m) (m_B b) in
  mscale dt AT.

Definition discrete_part
    (b : DiscreteBicycle.t (state_space_map_key_t := state_space_map_key_t))
    (v dt : R) : DiscreteBicycle.t * list message :=
  if Req_dec_T dt 0
  then (with_Ad_Bd b (Identity n n) (Zero n m), [])
  else
    let k := make_state_space_map_key v dt in
    let '(found, b) := discrete_state_space_lookup b k in
    if found then (b, [])
    else
      let T := exp (augmented b dt) in
      let out :=
        if negb (isZero (bottomLeftCorner m n T) discretization_precision)
           || negb (isIdentity (bottomRightCorner m m T)
                               discretization_precision)
        then [Discretization_validation_failed v dt] else [] in
      (with_Ad_Bd b (topLeftCorner n n T) (topRightCorner n m T), out).

End Parts.

End DiscreteBicycleParts.

(** ** [model::BicycleKinematic] of [src/bicycle/kinematic.cc]

    The class derives from the discrete bicycle.  The element accessors
    [get_output_element], [get_state_element] and [set_state_element] are
    declared in the header and taken as parameters. *)

Module BicycleKinematic.
Import Eigen.

Section Model.

Context {state_space_map_key_t : Type}.
Context `{Countable state_space_map_key_t}.
Variable g : R.
Variable get_output_element :
  DiscreteBicycle.output_t -> Bicycle.output_index_t -> R.
Variable get_state_element :
  DiscreteBicycle.state_t -> Bicycle.state_index_t -> R.
Variable set_state_element :
  DiscreteBicycle.state_t -> Bicycle.state_index_t -> R ->
  DiscreteBicycle.state_t.

Definition set_K
    (b : DiscreteBicycle.t (state_space_map_key_t := state_space_map_key_t))
  : DiscreteBicycle.t :=
  DiscreteBicycle.with_v_dt_K b (DiscreteBicycle.m_v b) (DiscreteBicycle.m_dt b)
    (madd (mscale g (DiscreteBicycle.m_K0 b))
          (mscale (DiscreteBicycle.m_v b * DiscreteBicycle.m_v b)
                  (DiscreteBicycle.m_K2 b))).

Definition set_state_space
    (b : DiscreteBicycle.t (state_space_map_key_t := state_space_map_key_t))
  : DiscreteBicycle.t :=
  set_K b.

Definition update_state
    (b : DiscreteBicycle.t (state_space_map_key_t := state_space_map_key_t))
    (x : DiscreteBicycle.state_t) (u : DiscreteBicycle.input_t)
    (z : DiscreteBicycle.output_t) : DiscreteBicycle.state_t :=
  let yaw_angle_measurement :=
    get_output_element z Bicycle.output_yaw_angle in
  let steer_angle_measurement :=
    get_output_element z Bicycle.output_steer_angle in
  let next_roll :=
    - mget (DiscreteBicycle.m_K b) 0 1 / mget (DiscreteBicycle.m_K b) 0 0
    * steer_angle_measurement in
  let next_x := vzero DiscreteBicycle.n in
  let next_x :=
    set_state_element next_x Bicycle.yaw_angle yaw_angle_measurement in
  let next_x :=
    set_state_element next_x Bicycle.steer_rate
      ((steer_angle_measurement - get_state_element x Bicycle.steer_angle)
       / DiscreteBicycle.m_dt b) in
  let next_x :=
    set_state_element next_x Bicycle.roll_rate
      ((next_roll - get_state_element x Bicycle.roll_angle)
       / DiscreteBicycle.m_dt b) in
  let next_x :=
    set_state_element next_x Bicycle.steer_angle steer_angle_measurement in
  let next_x := set_state_element next_x Bicycle.roll_angle next_roll in
  next_x.

End Model.

(** What the accessors are taken to do: a write is read back at its own
    index and leaves the other elements alone. *)
Definition element_access
    (get_state_element :
       DiscreteBicycle.state_t -> Bicycle.state_index_t -> R)
    (set_state_element :
       DiscreteBicycle.state_t -> Bicycle.state_index_t -> R ->
       DiscreteBicycle.state_t) : Prop :=
  (forall x i a, get_state_element (set_state_element x i a) i = a)
  /\ (forall x i j a, i <> j ->
        get_state_element (set_state_element x i a) j = get_state_element x j).

End BicycleKinematic.

(** ** [inc/sample_util.h]: matrices laid out for the sample schema

    The generated structs are taken as the tuples of their constructor
    arguments, in the order of the calls. *)

Module SampleUtil.
Import Eigen.

Definition symmetric_state_matrix (m : mat 5 5) : vec 15 :=
  (mget m 0 0, (mget m 0 1, (mget m 0 2, (mget m 0 3, (mget m 0 4,
  (mget m 1 1, (mget m 1 2, (mget m 1 3, (mget m 1 4,
  (mget m 2 2, (mget m 2 3, (mget m 2 4,
  (mget m 3 3, (mget m 3 4,
  (mget m 4 4, tt))))))))))))))).

Definition symmetric_output_matrix (m : mat 3 3) : vec 6 :=
  (mget m 0 0, (mget m 0 1, (mget m 0 2,
  (mget m 1 1, (mget m 1 2,
  (mget m 2 2, tt)))))).

Definition symmetric_input_matrix (m : mat 2 2) : vec 3 :=
  (mget m 0 0, (mget m 0 1, (mget m 1 1, tt))).

End SampleUtil.

(** ** More objects for the statements below *)

Module MoreExamples.
Import Eigen.

(** A discrete bicycle with a factor and a stiffness matrix in place, as
    [set_v_dt] leaves them. *)
Definition kinematic_bicycle : DiscreteBicycle.t :=
  DiscreteBicycle.mk 1 (1 / 200) (Identity 2 2) (Zero 2 2) (Zero 2 2)
    (Zero 2 2) ((2, (1, tt)), ((1, (3, tt)), tt))
    1 0 0 1 1 0 0 0 false false (LLT.compute (Identity 2 2))
    (Zero 5 5) (Zero 5 2) (Identity 5 5) (Zero 5 2)
    Examples.C_yaw_steer Examples.D_none (Some Examples.state_space_map).

(** A discrete bicycle as the initialiser list leaves it, without a table. *)
Definition plain_discrete_bicycle
  : DiscreteBicycle.t (state_space_map_key_t := (Z * Z)%type) :=
  DiscreteBicycle.mk 0 0 (Identity 2 2) (Zero 2 2) (Zero 2 2) (Zero 2 2)
    (Zero 2 2) 1 0 0 1 1 0 0 0 true true LLT.default
    (Zero 5 5) (Zero 5 2) (Zero 5 5) (Zero 5 2)
    Examples.C_yaw_steer Examples.D_none None.


Definition get_element (x : vec 5) (i : Bicycle.state_index_t) : R :=
  vget x (Bicycle.index i).
Definition set_element (x : vec 5) (i : Bicycle.state_index_t) (a : R)
  : vec 5 :=
  vset x (Bicycle.index i) a.
Definition get_output (z : vec 2) (i : Bicycle.output_index_t) : R :=
  vget z (Bicycle.output_index i).

End MoreExamples.

Module LLTFacts.
Import Eigen LLT.

Ltac mat22 M :=
  destruct M as [[?m00 [?m01 []]] [[?m10 [?m11 []]] []]].

Lemma solve_vector_spd (M : mat 2 2) (b : vec 2) :
  spd M -> solve_vector (llt_inplace M) b = mulv (inverse M) b.
Proof.
  mat22 M. destruct b as [b0 [b1 []]].
  unfold spd, llt_inplace, solve_vector, inverse, mulv, vdot, determinant.
  cbn. intros (Hs & Ha & Hd). subst m01.
  destruct (Rle_dec m00 0) as [F|_]; [lra|].
  assert (Hq : sqrt m00 * sqrt m00 = m00) by (apply sqrt_sqrt; lra).
  assert (Hq0 : sqrt m00 <> 0).
  { intro E. rewrite E in Hq. lra. }
  set (s := sqrt m00) in *. clearbody s.
  assert (Hx : m11 - m10 / s * (m10 / s) = (m00 * m11 - m10 * m10) / m00).
  { rewrite <- Hq. field. exact Hq0. }
  assert (Hpos : 0 < (m00 * m11 - m10 * m10) / m00).
  { apply Rdiv_lt_0_compat; lra. }
  rewrite Hx.
  destruct (Rle_dec ((m00 * m11 - m10 * m10) / m00) 0) as [F|_]; [lra|].
  cbn.
  assert (Hr : sqrt ((m00 * m11 - m10 * m10) / m00)
               * sqrt ((m00 * m11 - m10 * m10) / m00)
               = (m00 * m11 - m10 * m10) / m00) by (apply sqrt_sqrt; lra).
  assert (Hr0 : sqrt ((m00 * m11 - m10 * m10) / m00) <> 0).
  { intro E. rewrite E in Hr. lra. }
  set (r := sqrt ((m00 * m11 - m10 * m10) / m00)) in *. clearbody r.
  assert (Hm11 : m11 = r * r + m10 * m10 / (s * s)).
  { rewrite <- Hq in Hr, Ha. clear Hx Hpos Hd.
    assert (Hss : s * s <> 0) by lra.
    apply Rmult_eq_reg_r with (r := s * s); [|exact Hss].
    transitivity ((s * s * m11 - m10 * m10) / (s * s) * (s * s) + m10 * m10).
    - field. exact Hq0.
    - rewrite <- Hr. field. exact Hq0. }
  clear Hx Hpos Hr Hd Ha. subst m00 m11.
  f_equal; [|f_equal]; field; repeat split; try assumption.
  all: replace (r * r * (s * s) + m10 * m10 - m10 * m10)
         with ((r * s) * (r * s)) by ring.
  all: apply Rmult_integral_contrapositive_currified;
       apply Rmult_integral_contrapositive_currified; assumption.
Qed.

(** The factor of [[4, 2], [2, 5]] is [[2, 0], [1, 2]] (the entry above the
    diagonal is left as it was), and solving with it inverts the matrix. *)
Example llt_inplace_4_2_2_5 :
  llt_inplace ((4, (2, tt)), ((2, (5, tt)), tt))
  = ((2, (2, tt)), ((1, (2, tt)), tt)).
Proof.
  assert (H4 : sqrt 4 = 2).
  { replace 4 with (2 * 2) by ring. apply sqrt_square. lra. }
  unfold llt_inplace. cbn.
  destruct (Rle_dec 4 0) as [F|_]; [exfalso; lra|].
  rewrite H4.
  replace (5 - 2 / 2 * (2 / 2)) with 4 by field.
  destruct (Rle_dec 4 0) as [F|_]; [exfalso; lra|].
  rewrite H4. repeat f_equal. field.
Qed.

Example solve_vector_4_2_2_5 :
  solve_vector (llt_inplace ((4, (2, tt)), ((2, (5, tt)), tt))) (6, (7, tt))
  = (1, (1, tt)).
Proof.
  rewrite llt_inplace_4_2_2_5. unfold solve_vector. cbn.
  repeat f_equal; field.
Qed.

End LLTFacts.

(** ** [std::fmod] *)

Module CmathFacts.
Import Cmath.

Lemma trunc_small (r : R) : -1 < r < 1 -> trunc r = 0%Z.
Proof.
  intros [Hl Hu]. unfold trunc.
  destruct (Rle_dec 0 r) as [Hr|Hr].
  - symmetry. apply Int_part_spec. simpl. lra.
  - assert (E : Int_part (- r) = 0%Z).
    { symmetry. apply Int_part_spec. simpl. lra. }
    rewrite E. reflexivity.
Qed.

(** The remainder keeps the sign of [x] and is smaller than [y] in
    magnitude. *)
Lemma fmod_bound (x y : R) : 0 < y -> -1 < fmod x y / y < 1.
Proof.
  intros Hy. unfold fmod, trunc.
  assert (Hy0 : y <> 0) by lra.
  destruct (Rle_dec 0 (x / y)) as [Hq|Hq].
  - destruct (base_Int_part (x / y)) as [H1 H2].
    replace ((x - IZR (Int_part (x / y)) * y) / y)
      with (x / y - IZR (Int_part (x / y))) by (field; exact Hy0).
    lra.
  - destruct (base_Int_part (- (x / y))) as [H1 H2].
    rewrite opp_IZR.
    replace ((x - - IZR (Int_part (- (x / y))) * y) / y)
      with (x / y + IZR (Int_part (- (x / y)))) by (field; exact Hy0).
    lra.
Qed.

Lemma fmod_idempotent (x y : R) : 0 < y -> fmod (fmod x y) y = fmod x y.
Proof.
  intros Hy. unfold fmod at 1.
  rewrite (trunc_small _ (fmod_bound x y Hy)). simpl. ring.
Qed.

Example fmod_7_2 : fmod 7 2 = 1.
Proof.
  unfold fmod, trunc.
  destruct (Rle_dec 0 (7 / 2)) as [_|F]; [|exfalso; apply F; lra].
  replace (Int_part (7 / 2)) with 3%Z; [lra|].
  apply Int_part_spec. simpl. lra.
Qed.

Example fmod_minus_7_2 : fmod (-7) 2 = -1.
Proof.
  unfold fmod, trunc.
  destruct (Rle_dec 0 (-7 / 2)) as [F|_]; [exfalso; lra|].
  replace (Int_part (- (-7 / 2))) with 3%Z; [rewrite opp_IZR; lra|].
  apply Int_part_spec. simpl. lra.
Qed.

Lemma fmod_congruent (x y : R) : exists k : Z, fmod x y = x - IZR k * y.
Proof. exists (trunc (x / y)). reflexivity. Qed.

Lemma fmod_shift (x y theta : R) (j : Z) :
  x = IZR j * y + theta -> exists k : Z, fmod x y = theta - IZR k * y.
Proof.
  intros E. exists (trunc (x / y) - j)%Z.
  unfold fmod. rewrite minus_IZR, E. ring.
Qed.

End CmathFacts.

(** ** The range and the sign of [std::fmod] *)

Module NormalizeRange.
Import Eigen Cmath CmathFacts Bicycle.

Lemma fmod_range (x y : R) : 0 < y -> - y < fmod x y < y.
Proof.
  intros Hy. destruct (fmod_bound x y Hy) as [Hl Hu].
  assert (E : fmod x y = fmod x y / y * y) by (field; lra).
  rewrite E. split; nra.
Qed.

Lemma fmod_sign (x y : R) :
  0 < y -> (0 <= x -> 0 <= fmod x y) /\ (x <= 0 -> fmod x y <= 0).
Proof.
  intros Hy. unfold fmod, trunc.
  assert (Hx : x = x / y * y) by (field; lra).
  destruct (Rle_dec 0 (x / y)) as [Hq|Hq].
  - destruct (base_Int_part (x / y)) as [H1 H2]. split; intros Hs.
    + nra.
    + assert (E0 : x / y = 0) by nra.
      assert (Ei : Int_part (x / y) = 0%Z).
      { symmetry. apply Int_part_spec. rewrite E0. simpl. lra. }
      rewrite Ei. simpl. lra.
  - destruct (base_Int_part (- (x / y))) as [H1 H2]. rewrite opp_IZR.
    split; intros Hs.
    + exfalso. apply Hq. apply Rmult_le_reg_r with (r := y); [exact Hy|].
      rewrite <- Hx. lra.
    + nra.
Qed.

Lemma fmod_small (x y : R) : 0 < y -> - y < x < y -> fmod x y = x.
Proof.
  intros Hy [Hl Hu]. unfold fmod. rewrite trunc_small.
  - simpl. ring.
  - assert (Hx : x = x / y * y) by (field; lra). split; nra.
Qed.

(** Congruence, range and sign leave one value only. *)
Lemma fmod_unique (x y r : R) :
  0 < y ->
  (exists k : Z, r = x - IZR k * y) ->
  - y < r < y -> (0 <= x -> 0 <= r) -> (x <= 0 -> r <= 0) ->
  r = fmod x y.
Proof.
  intros Hy [k Hk] Hr Hpos Hneg.
  destruct (fmod_congruent x y) as [j Hj].
  destruct (fmod_range x y Hy) as [Fl Fu].
  destruct (fmod_sign x y Hy) as [Fpos Fneg].
  assert (E : r - fmod x y = IZR (j - k) * y).
  { rewrite minus_IZR, Hk, Hj. ring. }
  assert (Hz : (j - k = 0)%Z).
  { destruct (Rle_dec 0 x) as [Hx|Hx].
    - specialize (Hpos Hx). specialize (Fpos Hx).
      assert (Hlt : -1 < IZR (j - k) < 1) by (split; nra).
      destruct Hlt as [L U].
      apply lt_IZR in U. apply (lt_IZR (-1)) in L. lia.
    - assert (Hx' : x <= 0) by lra.
      specialize (Hneg Hx'). specialize (Fneg Hx').
      assert (Hlt : -1 < IZR (j - k) < 1) by (split; nra).
      destruct Hlt as [L U].
      apply lt_IZR in U. apply (lt_IZR (-1)) in L. lia. }
  rewrite Hz in E. simpl in E. lra.
Qed.

End NormalizeRange.

(** ** Angle normalisation *)

Module NormalizeFacts.
Import Eigen Cmath CmathFacts NormalizeRange Bicycle.

Ltac vec5 x := destruct x as [?x0 [?x1 [?x2 [?x3 [?x4 []]]]]].

(** C7.  [normalize_state] replaces yaw, roll and steer angle by values that
    differ from the originals by a whole multiple of [two_pi]; a yaw of
    three turns plus [theta] comes out congruent to [theta]; roll rate and
    steer rate are passed through untouched.  With a positive [two_pi] the
    value put in place of an angle is the wrapped one: smaller than [two_pi]
    in magnitude and on the side of zero the angle was on, which together
    with the congruence leaves one value only. *)
Theorem normalize_state_wraps_angles (two_pi : R) (x : state_t) :
  (exists k : Z, vget (normalize_state two_pi x) (index yaw_angle)
                 = vget x (index yaw_angle) - IZR k * two_pi)
  /\ (exists k : Z, vget (normalize_state two_pi x) (index roll_angle)
                    = vget x (index roll_angle) - IZR k * two_pi)
  /\ (exists k : Z, vget (normalize_state two_pi x) (index steer_angle)
                    = vget x (index steer_angle) - IZR k * two_pi)
  /\ (forall theta : R,
        vget x (index yaw_angle) = 3 * two_pi + theta ->
        exists k : Z, vget (normalize_state two_pi x) (index yaw_angle)
                      = theta - IZR k * two_pi)
  /\ vget (normalize_state two_pi x) (index roll_rate)
     = vget x (index roll_rate)
  /\ vget (normalize_state two_pi x) (index steer_rate)
     = vget x (index steer_rate)
  /\ (0 < two_pi ->
      forall i : state_index_t,
        i = yaw_angle \/ i = roll_angle \/ i = steer_angle ->
        - two_pi < vget (normalize_state two_pi x) (index i) < two_pi
        /\ (0 <= vget x (index i) ->
            0 <= vget (normalize_state two_pi x) (index i))
        /\ (vget x (index i) <= 0 ->
            vget (normalize_state two_pi x) (index i) <= 0)
        /\ (forall y : R,
              (exists k : Z, y = vget x (index i) - IZR k * two_pi) ->
              - two_pi < y < two_pi ->
              (0 <= vget x (index i) -> 0 <= y) ->
              (vget x (index i) <= 0 -> y <= 0) ->
              y = vget (normalize_state two_pi x) (index i))).
Proof.
  vec5 x. unfold normalize_state. cbn.
  repeat match goal with |- _ /\ _ => split end;
    try apply fmod_congruent; try reflexivity.
  - intros theta E. apply (fmod_shift _ _ theta 3). exact E.
  - intros Hp i Hi.
    destruct Hi as [ -> | [ -> | -> ] ]; cbn;
      (split; [apply fmod_range; exact Hp|];
       split; [apply fmod_sign; exact Hp|];
       split; [apply fmod_sign; exact Hp|];
       intros y Hk Hr Hpos Hneg; apply fmod_unique; assumption).
Qed.

Lemma normalize_state_wraps_angles_witness :
  vget ((7, (0, (0, (0, (0, tt))))) : state_t) (index yaw_angle) = 3 * 2 + 1
  /\ 0 < 2
  /\ (exists k : Z,
        vget (normalize_state 2 (7, (0, (0, (0, (0, tt)))))) (index yaw_angle)
        = 1 - IZR k * 2)
  /\ - 2 < vget (normalize_state 2 (7, (0, (0, (0, (0, tt))))))
                (index yaw_angle) < 2.
Proof.
  destruct (normalize_state_wraps_angles 2 (7, (0, (0, (0, (0, tt))))))
    as (_ & _ & _ & Ht & _ & _ & Hb).
  split; [cbn; lra|]. split; [lra|]. split.
  - apply Ht. cbn. lra.
  - apply Hb; [lra | left; reflexivity].
Defined.

(** C10.  Normalising a state a second time changes nothing. *)
Theorem normalize_state_idempotent (two_pi : R) (x : state_t) :
  0 < two_pi ->
  normalize_state two_pi (normalize_state two_pi x) = normalize_state two_pi x.
Proof.
  intros Hpos. vec5 x. unfold normalize_state. cbn.
  rewrite !fmod_idempotent by exact Hpos. reflexivity.
Qed.

Lemma normalize_state_idempotent_witness :
  0 < 2 * PI
  /\ normalize_state (2 * PI)
       (normalize_state (2 * PI) (7, (1, (-4, (9, (-9, tt))))))
     = normalize_state (2 * PI) (7, (1, (-4, (9, (-9, tt))))).
Proof.
  assert (Hpos : 0 < 2 * PI) by (pose proof PI_RGT_0; lra).
  split.
  - exact Hpos.
  - apply (normalize_state_idempotent (2 * PI) (7, (1, (-4, (9, (-9, tt))))) Hpos).
Defined.

End NormalizeFacts.

(** ** The state-space build of [src/bicycle/bicycle.cc] *)

Module BicycleFacts.
Import Eigen LLT LLTFacts Bicycle.

Ltac mat55 A :=
  destruct A as
    [[?a00 [?a01 [?a02 [?a03 [?a04 []]]]]]
     [[?a10 [?a11 [?a12 [?a13 [?a14 []]]]]]
      [[?a20 [?a21 [?a22 [?a23 [?a24 []]]]]]
       [[?a30 [?a31 [?a32 [?a33 [?a34 []]]]]]
        [[?a40 [?a41 [?a42 [?a43 [?a44 []]]]]] []]]]]].

Ltac mat52 B :=
  destruct B as
    [[?b00 [?b01 []]] [[?b10 [?b11 []]] [[?b20 [?b21 []]]
     [[?b30 [?b31 []]] [[?b40 [?b41 []]] []]]]]].

Lemma tmap_ext {T U : Type} {k : nat} (f h : T -> U) (v : tup T k) :
  (forall a, f a = h a) -> tmap f v = tmap h v.
Proof.
  intros E. induction k as [|k IH]; cbn.
  - reflexivity.
  - rewrite E, IH. reflexivity.
Qed.

(** With a symmetric positive definite [M], solving with the factor of [M]
    is multiplying by [M.inverse()]. *)
Lemma solve_spd (M b : mat 2 2) :
  spd M -> solve (compute M) b = Some (mmul (inverse M) b).
Proof.
  intros HM. unfold solve, compute, solve_columns. f_equal.
  rewrite (tmap_ext _ (mulv (inverse M)) _ (fun v => solve_vector_spd M v HM)).
  mat22 M. mat22 b. reflexivity.
Qed.

(** The recompute on an object whose factorisation is that of its mass
    matrix: it succeeds, clears the flag, keeps the parameters and fills the
    speed-dependent entries from them. *)
Lemma set_state_space_spec (g : R) (b : t) :
  m_M_llt b = compute (m_M b) -> spd (m_M b) ->
  exists b',
    set_state_space g b = Some b'
    /\ need_recalculate_state_space b' = false
    /\ (m_v b', m_M b', m_C1 b', m_K0 b', m_K2 b')
       = (m_v b, m_M b, m_C1 b, m_K0 b, m_K2 b)
    /\ m_M_llt b' = m_M_llt b
    /\ mget (A b') 0 (index steer_angle) = m_v b * cos (m_lambda b) / m_w b
    /\ block 2 2 (A b') 3 1
       = mopp (mmul (inverse (m_M b))
                    (madd (mscale g (m_K0 b))
                          (mscale (m_v b * m_v b) (m_K2 b))))
    /\ bottomRightCorner 2 2 (A b')
       = mopp (mmul (inverse (m_M b)) (mscale (m_v b) (m_C1 b)))
    /\ bottomRows 2 (B b') = inverse (m_M b).
Proof.
  destruct b as [v M C1 K0 K2 w c lam rr rf d1 d2 d3 f1 f2 llt A0 B0 C0 D0].
  cbn [m_M_llt m_M]. intros Hllt HM. subst llt.
  unfold set_state_space.
  cbn [m_v m_M m_C1 m_K0 m_K2 m_M_llt m_A m_B m_lambda m_w m_c].
  rewrite !(solve_spd _ _ HM).
  eexists. split; [reflexivity|].
  cbn [with_state_space need_recalculate_state_space m_recalculate_state_space
       m_v m_M m_C1 m_K0 m_K2 m_M_llt m_A m_B A B m_lambda m_w m_c].
  unfold second_order_matrix_t, o, n, m in *.
  generalize (mmul (inverse M) (madd (mscale g K0) (mscale (v * v) K2))).
  generalize (mmul (inverse M) (mscale v C1)).
  generalize (inverse M).
  intros Z Y X. mat55 A0. mat52 B0. mat22 X. mat22 Y. mat22 Z.
  repeat match goal with |- _ /\ _ => split end; reflexivity.
Qed.

Lemma spd_Identity : spd (Identity 2 2).
Proof. unfold spd, determinant. cbn. repeat split; lra. Qed.

(** C5, amended.  A mutator called with the recompute flag false leaves [A]
    and [B] as they were.  [set_C1], [set_K0] and [set_K2] store their
    argument and raise the state-space flag; [set_M] also refactors; the
    wheelbase, trail and tilt setters raise both flags; the wheel-radius
    setters raise the flag of the Moore parameters only.  Every other member
    is the one of before the call. *)
Theorem deferred_mutation_keeps_A_B
    (g : R) (b : t) (X : second_order_matrix_t) (r : R) :
  (exists b', set_C1 g b X false = Some b'
     /\ A b' = A b /\ B b' = B b
     /\ b' = mk (m_v b) (m_M b) X (m_K0 b) (m_K2 b) (m_w b) (m_c b)
                (m_lambda b) (m_rr b) (m_rf b) (m_d1 b) (m_d2 b) (m_d3 b)
                true (m_recalculate_moore_parameters b)
                (m_M_llt b) (m_A b) (m_B b) (m_C b) (m_D b))
  /\ (exists b', set_K0 g b X false = Some b'
     /\ A b' = A b /\ B b' = B b
     /\ b' = mk (m_v b) (m_M b) (m_C1 b) X (m_K2 b) (m_w b) (m_c b)
                (m_lambda b) (m_rr b) (m_rf b) (m_d1 b) (m_d2 b) (m_d3 b)
                true (m_recalculate_moore_parameters b)
                (m_M_llt b) (m_A b) (m_B b) (m_C b) (m_D b))
  /\ (exists b', set_K2 g b X false = Some b'
     /\ A b' = A b /\ B b' = B b
     /\ b' = mk (m_v b) (m_M b) (m_C1 b) (m_K0 b) X (m_w b) (m_c b)
                (m_lambda b) (m_rr b) (m_rf b) (m_d1 b) (m_d2 b) (m_d3 b)
                true (m_recalculate_moore_parameters b)
                (m_M_llt b) (m_A b) (m_B b) (m_C b) (m_D b))
  /\ (exists b', set_M g b X false = Some b'
     /\ A b' = A b /\ B b' = B b
     /\ b' = mk (m_v b) X (m_C1 b) (m_K0 b) (m_K2 b) (m_w b) (m_c b)
                (m_lambda b) (m_rr b) (m_rf b) (m_d1 b) (m_d2 b) (m_d3 b)
                true (m_recalculate_moore_parameters b)
                (compute X) (m_A b) (m_B b) (m_C b) (m_D b))
  /\ (exists b', set_wheelbase g b r false = Some b'
     /\ A b' = A b /\ B b' = B b
     /\ b' = mk (m_v b) (m_M b) (m_C1 b) (m_K0 b) (m_K2 b) r (m_c b)
                (m_lambda b) (m_rr b) (m_rf b) (m_d1 b) (m_d2 b) (m_d3 b)
                true true
                (m_M_llt b) (m_A b) (m_B b) (m_C b) (m_D b))
  /\ (exists b', set_trail g b r false = Some b'
     /\ A b' = A b /\ B b' = B b
     /\ b' = mk (m_v b) (m_M b) (m_C1 b) (m_K0 b) (m_K2 b) (m_w b) r
                (m_lambda b) (m_rr b) (m_rf b) (m_d1 b) (m_d2 b) (m_d3 b)
                true true
                (m_M_llt b) (m_A b) (m_B b) (m_C b) (m_D b))
  /\ (exists b', set_steer_axis_tilt g b r false = Some b'
     /\ A b' = A b /\ B b' = B b
     /\ b' = mk (m_v b) (m_M b) (m_C1 b) (m_K0 b) (m_K2 b) (m_w b) (m_c b)
                r (m_rr b) (m_rf b) (m_d1 b) (m_d2 b) (m_d3 b)
                true true
                (m_M_llt b) (m_A b) (m_B b) (m_C b) (m_D b))
  /\ (exists b', set_rear_wheel_radius b r false = Some b'
     /\ A b' = A b /\ B b' = B b
     /\ b' = mk (m_v b) (m_M b) (m_C1 b) (m_K0 b) (m_K2 b) (m_w b) (m_c b)
                (m_lambda b) r (m_rf b) (m_d1 b) (m_d2 b) (m_d3 b)
                (m_recalculate_state_space b) true
                (m_M_llt b) (m_A b) (m_B b) (m_C b) (m_D b))
  /\ (exists b', set_front_wheel_radius b r false = Some b'
     /\ A b' = A b /\ B b' = B b
     /\ b' = mk (m_v b) (m_M b) (m_C1 b) (m_K0 b) (m_K2 b) (m_w b) (m_c b)
                (m_lambda b) (m_rr b) r (m_d1 b) (m_d2 b) (m_d3 b)
                (m_recalculate_state_space b) true
                (m_M_llt b) (m_A b) (m_B b) (m_C b) (m_D b)).
Proof.
  repeat match goal with |- _ /\ _ => split end;
    (eexists; split; [reflexivity|]);
    repeat match goal with |- _ /\ _ => split end; reflexivity.
Qed.

Lemma llt_inplace_Identity_1_0 : mget (llt_inplace (Identity 2 2)) 1 0 = 0.
Proof.
  unfold llt_inplace. cbn.
  destruct (Rle_dec 1 0) as [F|_]; [reflexivity|].
  destruct (Rle_dec (1 - 0 / sqrt 1 * (0 / sqrt 1)) 0); cbn;
    unfold Rdiv; ring.
Qed.

(** C5 as stated fails for the mass matrix: [set_M(M, false)] refactors,
    so a member besides the stored parameter and the flag changes. *)
Lemma deferred_set_M_refactors :
  exists b',
    set_M (981 / 100) Examples.unit_bicycle
          ((4, (2, tt)), ((2, (5, tt)), tt)) false = Some b'
    /\ A b' = A Examples.unit_bicycle /\ B b' = B Examples.unit_bicycle
    /\ m_M_llt b' <> m_M_llt Examples.unit_bicycle
    /\ b' <> with_recalculate_state_space
               (with_M Examples.unit_bicycle
                       ((4, (2, tt)), ((2, (5, tt)), tt))
                       (m_M_llt Examples.unit_bicycle)) true.
Proof.
  assert (Hne : compute ((4, (2, tt)), ((2, (5, tt)), tt))
                <> compute (Identity 2 2)).
  { unfold compute. rewrite llt_inplace_4_2_2_5. intros E.
    injection E as E.
    apply (f_equal (fun L : mat 2 2 => mget L 1 0)) in E.
    rewrite llt_inplace_Identity_1_0 in E. cbn in E. lra. }
  eexists. split; [reflexivity|].
  split; [reflexivity|]. split; [reflexivity|]. split.
  - exact Hne.
  - intros E. apply (f_equal m_M_llt) in E. exact (Hne E).
Qed.


(** C6, on the object the constructor builds.  The constructor never
    factors the mass matrix, so the recompute it ends with asks a
    decomposition that holds no factor to solve: the assertion in
    [LLT::solve] fails and no state matrix is produced. *)
Theorem recompute_after_construction_has_no_factor
    (g : R) (default_C : output_matrix_t) (default_D : feedthrough_matrix_t)
    (M C1 K0 K2 : second_order_matrix_t) (w c lambda rr rf v : R) :
  Bicycle g default_C default_D M C1 K0 K2 w c lambda rr rf v = None
  /\ BicycleWhipple g default_C default_D M C1 K0 K2 w c lambda rr rf v = None.
Proof. split; reflexivity. Qed.

(** The recompute does not look at the flag it clears. *)
Lemma set_state_space_ignores_flag (g : R) (b : t) (flag : bool) :
  set_state_space g (with_recalculate_state_space b flag)
  = set_state_space g b.
Proof. destruct b. reflexivity. Qed.

(** C4 as stated fails: on a bicycle whose damping matrix was replaced with
    the recompute deferred, the flag is up, yet [A()] hands out a matrix
    that differs from the recomputed one. *)
Lemma dirty_accessor_returns_stale_A :
  set_C1 (981 / 100) Examples.unit_bicycle (Identity 2 2) false
  = Some Examples.unit_bicycle_dirty
  /\ need_recalculate_state_space Examples.unit_bicycle_dirty = true
  /\ exists b',
       set_state_space (981 / 100) Examples.unit_bicycle_dirty = Some b'
       /\ A Examples.unit_bicycle_dirty <> A b'.
Proof.
  split; [reflexivity|]. split; [reflexivity|].
  destruct (set_state_space_spec (981 / 100) Examples.unit_bicycle_dirty)
    as (b' & Hb' & _ & _ & _ & _ & _ & Hbr & _).
  - reflexivity.
  - exact spd_Identity.
  - exists b'. split; [exact Hb'|].
    intros E. rewrite <- E in Hbr.
    apply (f_equal (fun X : mat 2 2 => mget X 0 0)) in Hbr.
    cbv - [Rplus Rmult Rminus Rdiv Ropp Rinv IZR] in Hbr.
    replace (1 * 1 - 0 * 0) with 1 in Hbr by ring.
    rewrite !Rdiv_1_r in Hbr. lra.
Qed.

(** The recompute on an object whose factorisation is that of its mass
    matrix, entry by entry: every speed- and geometry-dependent entry of [A]
    and the lower rows of [B] come from the parameters the object holds. *)
Lemma set_state_space_reflects (g : R) (p : t) :
  m_M_llt p = compute (m_M p) -> spd (m_M p) ->
  exists b2,
    set_state_space g p = Some b2
    /\ need_recalculate_state_space b2 = false
    /\ (v b2, M b2, C1 b2, K0 b2, K2 b2,
        wheelbase b2, trail b2, steer_axis_tilt b2)
       = (v p, M p, C1 p, K0 p, K2 p,
          wheelbase p, trail p, steer_axis_tilt p)
    /\ mget (A b2) 0 2 = v p * cos (steer_axis_tilt p) / wheelbase p
    /\ mget (A b2) 0 4 = trail p * cos (steer_axis_tilt p) / wheelbase p
    /\ block 2 2 (A b2) 3 1
       = mopp (mmul (inverse (M p))
                    (madd (mscale g (K0 p)) (mscale (v p * v p) (K2 p))))
    /\ bottomRightCorner 2 2 (A b2)
       = mopp (mmul (inverse (M p)) (mscale (v p) (C1 p)))
    /\ bottomRows 2 (B b2) = inverse (M p).
Proof.
  destruct p as [v M C1 K0 K2 w c lam rr rf d1 d2 d3 f1 f2 llt A0 B0 C0 D0].
  cbn [m_M_llt m_M]. intros Hllt HM. subst llt.
  unfold set_state_space.
  cbn [m_v m_M m_C1 m_K0 m_K2 m_M_llt m_A m_B m_lambda m_w m_c].
  rewrite !(solve_spd _ _ HM).
  eexists. split; [reflexivity|].
  unfold Bicycle.v, Bicycle.M, Bicycle.C1, Bicycle.K0, Bicycle.K2,
    wheelbase, trail, steer_axis_tilt.
  cbn [with_state_space need_recalculate_state_space m_recalculate_state_space
       m_v m_M m_C1 m_K0 m_K2 m_M_llt m_A m_B A B m_lambda m_w m_c].
  unfold second_order_matrix_t, o, n, m in *.
  generalize (mmul (inverse M) (madd (mscale g K0) (mscale (v * v) K2))).
  generalize (mmul (inverse M) (mscale v C1)).
  generalize (inverse M).
  intros Z Y X. mat55 A0. mat52 B0. mat22 X. mat22 Y. mat22 Z.
  repeat match goal with |- _ /\ _ => split end; reflexivity.
Qed.

(** C4, amended.  [A()] and [B()] hand out the stored matrices whatever the
    flag says.  After each of the seven mutators that raise the state-space
    flag, called with the recompute deferred, the new parameter is stored,
    the flag is up and [A()], [B()] are the matrices of before the call; the
    wheel-radius setters raise the flag of the Moore parameters only.  Where
    the decomposition holds the factor of a symmetric positive definite mass
    matrix, [set_state_space()] run on the mutated object directly, through
    [set_v], or by the mutator called with the flag true succeeds, clears the
    flag, keeps the parameters and leaves in [A] and [B] the entries computed
    from them. *)
Theorem accessors_return_stored_matrices
    (g : R) (b : t) (X Mx : second_order_matrix_t) (r v' : R) :
  let reflects := fun p b2 : t =>
    need_recalculate_state_space b2 = false
    /\ (v b2, M b2, C1 b2, K0 b2, K2 b2,
        wheelbase b2, trail b2, steer_axis_tilt b2)
       = (v p, M p, C1 p, K0 p, K2 p,
          wheelbase p, trail p, steer_axis_tilt p)
    /\ mget (A b2) 0 2 = v p * cos (steer_axis_tilt p) / wheelbase p
    /\ mget (A b2) 0 4 = trail p * cos (steer_axis_tilt p) / wheelbase p
    /\ block 2 2 (A b2) 3 1
       = mopp (mmul (inverse (M p))
                    (madd (mscale g (K0 p)) (mscale (v p * v p) (K2 p))))
    /\ bottomRightCorner 2 2 (A b2)
       = mopp (mmul (inverse (M p)) (mscale (v p) (C1 p)))
    /\ bottomRows 2 (B b2) = inverse (M p) in
  let lazily := fun (deferred eager : option t) (stored : t -> Prop) =>
    exists b1,
      deferred = Some b1 /\ stored b1
      /\ need_recalculate_state_space b1 = true
      /\ A b1 = A b /\ B b1 = B b
      /\ (exists b2, set_state_space g b1 = Some b2 /\ reflects b1 b2)
      /\ (exists b2, set_v g b1 v' = Some b2 /\ reflects (with_v b1 v') b2)
      /\ (exists b2, eager = Some b2 /\ reflects b1 b2) in
  let radius := fun (deferred : option t) (stored : t -> Prop) =>
    exists b1,
      deferred = Some b1 /\ stored b1
      /\ need_recalculate_state_space b1 = need_recalculate_state_space b
      /\ need_recalculate_moore_parameters b1 = true
      /\ A b1 = A b /\ B b1 = B b in
  m_M_llt b = compute (m_M b) -> spd (m_M b) -> spd Mx ->
  (A b = m_A b /\ B b = m_B b)
  /\ lazily (set_M g b Mx false) (set_M g b Mx true) (fun b1 => M b1 = Mx)
  /\ lazily (set_C1 g b X false) (set_C1 g b X true) (fun b1 => C1 b1 = X)
  /\ lazily (set_K0 g b X false) (set_K0 g b X true) (fun b1 => K0 b1 = X)
  /\ lazily (set_K2 g b X false) (set_K2 g b X true) (fun b1 => K2 b1 = X)
  /\ lazily (set_wheelbase g b r false) (set_wheelbase g b r true)
            (fun b1 => wheelbase b1 = r)
  /\ lazily (set_trail g b r false) (set_trail g b r true)
            (fun b1 => trail b1 = r)
  /\ lazily (set_steer_axis_tilt g b r false) (set_steer_axis_tilt g b r true)
            (fun b1 => steer_axis_tilt b1 = r)
  /\ radius (set_rear_wheel_radius b r false)
            (fun b1 => rear_wheel_radius b1 = r)
  /\ radius (set_front_wheel_radius b r false)
            (fun b1 => front_wheel_radius b1 = r).
Proof.
  intros reflects lazily radius.
  destruct b as [v0 M0 C10 K00 K20 w c lam rr rf d1 d2 d3 f1 f2 llt A0 B0 C0 D0].
  cbn [m_M_llt m_M]. intros Hllt HM HMx. subst llt.
  split; [split; reflexivity|].
  repeat match goal with |- _ /\ _ => split end;
    try (eexists; repeat match goal with |- _ /\ _ => split end;
         reflexivity).
  all: eexists; split; [reflexivity|]; split; [reflexivity|];
    split; [reflexivity|]; split; [reflexivity|]; split; [reflexivity|];
    repeat match goal with |- _ /\ _ => split end;
    (apply set_state_space_reflects; [reflexivity | assumption]).
Qed.

Lemma accessors_return_stored_matrices_witness :
  m_M_llt Examples.unit_bicycle = compute (m_M Examples.unit_bicycle)
  /\ spd (m_M Examples.unit_bicycle)
  /\ spd (Identity 2 2)
  /\ exists b1 b2,
      set_C1 (981 / 100) Examples.unit_bicycle (Identity 2 2) false = Some b1
      /\ need_recalculate_state_space b1 = true
      /\ A b1 = A Examples.unit_bicycle /\ B b1 = B Examples.unit_bicycle
      /\ set_state_space (981 / 100) b1 = Some b2
      /\ need_recalculate_state_space b2 = false
      /\ bottomRightCorner 2 2 (A b2)
         = mopp (mmul (inverse (M b1)) (mscale (v b1) (C1 b1))).
Proof.
  split; [reflexivity|]. split; [exact spd_Identity|].
  split; [exact spd_Identity|].
  destruct (accessors_return_stored_matrices (981 / 100)
              Examples.unit_bicycle (Identity 2 2) (Identity 2 2) 1 4
              eq_refl spd_Identity spd_Identity)
    as (_ & _ & (b1 & H1 & _ & Hf & HA & HB
                 & (b2 & H2 & Hf2 & _ & _ & _ & _ & Hbr & _) & _) & _).
  exists b1, b2.
  repeat match goal with |- _ /\ _ => split end; assumption.
Defined.

End BicycleFacts.

(** ** The discrete-time matrices of [src/bicycle.cc] *)

Module DiscreteBicycleFacts.
Import Eigen LLT DiscreteBicycle.

Section Facts.

Context {state_space_map_key_t : Type}.
Context `{Countable state_space_map_key_t}.
Variable make_state_space_map_key : R -> R -> state_space_map_key_t.
Variable g : R.
Variable discretization_precision : R.

Local Abbreviation object := (DiscreteBicycle.t (state_space_map_key_t := state_space_map_key_t)).

Variable exp : discretization_matrix_t -> discretization_matrix_t.

Lemma set_v_dt_zero (b : object) (v : R) :
  factor_available b ->
  exists b',
    set_v_dt make_state_space_map_key g discretization_precision exp b v 0
    = Some (b', [])
    /\ m_Ad b' = Identity n n /\ m_Bd b' = Zero n m
    /\ m_v b' = v /\ m_dt b' = 0 /\ m_recalculate_state_space b' = false
    /\ factor_available b'.
Proof.
  intros Hf. unfold set_v_dt.
  destruct (Req_dec_T 0 0) as [_|F]; [|exfalso; apply F; reflexivity].
  destruct b as [v0 dt0 M C1 K0 K2 K w c lam rr rf d1 d2 d3 f1 f2 llt
                 A0 B0 Ad0 Bd0 C0 D0 tbl].
  unfold factor_available in *. cbn in Hf.
  destruct f1.
  - cbn. eexists. split; [reflexivity|]. cbn.
    repeat match goal with |- _ /\ _ => split end; try reflexivity.
    right. discriminate.
  - destruct Hf as [Hf|Hf]; [discriminate|].
    destruct llt as [L|]; [|exfalso; apply Hf; reflexivity].
    cbn. eexists. split; [reflexivity|]. cbn.
    repeat match goal with |- _ /\ _ => split end; try reflexivity.
    right. discriminate.
Qed.

(** C2.  With a sample time of zero [set_v_dt] leaves the identity in [Ad]
    and zero in [Bd], whatever the speed and the parameters: on an object
    that can get past its solves, and in the constructor. *)
Theorem set_v_dt_zero_sample_time (b : object) (v : R) :
  factor_available b ->
  (exists b' out,
      set_v_dt make_state_space_map_key g discretization_precision exp b v 0
      = Some (b', out)
      /\ m_Ad b' = Identity n n /\ m_Bd b' = Zero n m)
  /\ (forall (M C1 K0 K2 : second_order_matrix_t) (w c lambda rr rf : R)
             (default_C : output_matrix_t) (default_D : feedthrough_matrix_t)
             (table : option (gmap state_space_map_key_t
                                   (state_matrix_t * input_matrix_t))),
        exists b' out,
          Bicycle make_state_space_map_key g discretization_precision exp
                  M C1 K0 K2 w c lambda rr rf v 0 default_C default_D table
          = Some (b', out)
          /\ m_Ad b' = Identity n n /\ m_Bd b' = Zero n m).
Proof.
  intros Hf. split.
  - destruct (set_v_dt_zero b v Hf) as (b' & E & HA & HB & _).
    exists b', []. auto.
  - intros. unfold Bicycle.
    match goal with |- context [set_v_dt _ _ _ _ ?b0 v 0] =>
      destruct (set_v_dt_zero b0 v) as (b' & E & HA & HB & _)
    end.
    + left. reflexivity.
    + exists b', []. auto.
Qed.

Lemma discrete_state_space_lookup_found (b : object)
    (k : state_space_map_key_t)
    (table : gmap state_space_map_key_t (state_matrix_t * input_matrix_t))
    (Ad0 : state_matrix_t) (Bd0 : input_matrix_t) :
  m_discrete_state_space_map b = Some table ->
  table !! k = Some (Ad0, Bd0) ->
  discrete_state_space_lookup b k = (true, with_Ad_Bd b Ad0 Bd0).
Proof.
  intros Hmap Hkey. unfold discrete_state_space_lookup.
  rewrite Hmap, Hkey. reflexivity.
Qed.

(** The table is only read: an object that finds its key there gets the
    stored pair, and prints nothing. *)
Lemma set_v_dt_found (b : object) (v dt : R)
    (table : gmap state_space_map_key_t (state_matrix_t * input_matrix_t))
    (Ad0 : state_matrix_t) (Bd0 : input_matrix_t) :
  factor_available b ->
  dt <> 0 ->
  m_discrete_state_space_map b = Some table ->
  table !! make_state_space_map_key v dt = Some (Ad0, Bd0) ->
  exists b',
    set_v_dt make_state_space_map_key g discretization_precision exp b v dt
    = Some (b', [])
    /\ m_Ad b' = Ad0 /\ m_Bd b' = Bd0
    /\ m_discrete_state_space_map b' = Some table.
Proof.
  intros Hf Hdt Hmap Hkey. unfold set_v_dt.
  destruct (Req_dec_T dt 0) as [F|_]; [contradiction|].
  destruct b as [v0 dt0 M C1 K0 K2 K w c lam rr rf d1 d2 d3 f1 f2 llt
                 A0 B0 Ad1 Bd1 C0 D0 tbl].
  unfold factor_available in *. cbn in Hf, Hmap. subst tbl.
  destruct f1.
  - cbn -[discrete_state_space_lookup].
    erewrite discrete_state_space_lookup_found;
      [|reflexivity|exact Hkey].
    eexists. split; [reflexivity|]. cbn. auto.
  - destruct Hf as [Hf|Hf]; [discriminate|].
    destruct llt as [L|]; [|exfalso; apply Hf; reflexivity].
    cbn -[discrete_state_space_lookup].
    erewrite discrete_state_space_lookup_found;
      [|reflexivity|exact Hkey].
    eexists. split; [reflexivity|]. cbn. auto.
Qed.

Lemma set_v_dt_found_any_exp
    (exp' : discretization_matrix_t -> discretization_matrix_t)
    (b : object) (v dt : R)
    (table : gmap state_space_map_key_t (state_matrix_t * input_matrix_t))
    (Ad0 : state_matrix_t) (Bd0 : input_matrix_t) :
  dt <> 0 ->
  m_discrete_state_space_map b = Some table ->
  table !! make_state_space_map_key v dt = Some (Ad0, Bd0) ->
  set_v_dt make_state_space_map_key g discretization_precision exp' b v dt
  = set_v_dt make_state_space_map_key g discretization_precision exp b v dt.
Proof.
  intros Hdt Hmap Hkey. unfold set_v_dt.
  destruct (Req_dec_T dt 0) as [F|_]; [contradiction|].
  destruct b as [v0 dt0 M C1 K0 K2 K w c lam rr rf d1 d2 d3 f1 f2 llt
                 A0 B0 Ad1 Bd1 C0 D0 tbl].
  cbn in Hmap. subst tbl.
  destruct f1, llt as [L|];
    cbn -[discrete_state_space_lookup];
    try (erewrite discrete_state_space_lookup_found;
           [|reflexivity|exact Hkey]);
    reflexivity.
Qed.

(** C3.  When the caller's table holds the key of [(v, dt)] and [dt] is not
    zero, [set_v_dt] leaves in [Ad] and [Bd] the very pair the table stores
    and prints no warning; the matrix exponential plays no part: any other
    function in its place gives the same object. *)
Theorem set_v_dt_takes_table_entry
    (exp' : discretization_matrix_t -> discretization_matrix_t)
    (b : object) (v dt : R)
    (table : gmap state_space_map_key_t (state_matrix_t * input_matrix_t))
    (Ad0 : state_matrix_t) (Bd0 : input_matrix_t) :
  factor_available b ->
  dt <> 0 ->
  m_discrete_state_space_map b = Some table ->
  table !! make_state_space_map_key v dt = Some (Ad0, Bd0) ->
  (exists b',
      set_v_dt make_state_space_map_key g discretization_precision exp b v dt
      = Some (b', [])
      /\ m_Ad b' = Ad0 /\ m_Bd b' = Bd0)
  /\ set_v_dt make_state_space_map_key g discretization_precision exp' b v dt
     = set_v_dt make_state_space_map_key g discretization_precision exp b v dt.
Proof.
  intros Hf Hdt Hmap Hkey. split.
  - destruct (set_v_dt_found b v dt table Ad0 Bd0 Hf Hdt Hmap Hkey)
      as (b' & E & HA & HB & _).
    exists b'. auto.
  - exact (set_v_dt_found_any_exp exp' b v dt table Ad0 Bd0 Hdt Hmap Hkey).
Qed.

(** The state matrix [set_v_dt] builds when the flag is up and the mass
    matrix is symmetric positive definite: the factorisation is computed
    first, and the speed-dependent entries are the ones the comment in the
    source gives. *)
Lemma set_v_dt_state_matrix (b : object) (v dt : R) :
  m_recalculate_state_space b = true ->
  spd (m_M b) ->
  exists b' out,
    set_v_dt make_state_space_map_key g discretization_precision exp b v dt
    = Some (b', out)
    /\ mget (m_A b') 0 2 = v * cos (m_lambda b) / m_w b
    /\ block 2 2 (m_A b') 3 1
       = mopp (mmul (inverse (m_M b))
                    (madd (mscale g (m_K0 b)) (mscale (v * v) (m_K2 b))))
    /\ bottomRightCorner 2 2 (m_A b')
       = mopp (mmul (inverse (m_M b)) (mscale v (m_C1 b)))
    /\ bottomRows 2 (m_B b') = inverse (m_M b).
Proof.
  destruct b as [v0 dt0 M C1 K0 K2 K w c lam rr rf d1 d2 d3 f1 f2 llt
                 A0 B0 Ad1 Bd1 C0 D0 tbl].
  cbn [m_recalculate_state_space m_M m_K0 m_K2 m_C1 m_lambda m_w].
  intros Hflag HM. subst f1.
  unfold set_v_dt.
  cbn [m_recalculate_state_space initialize_state_space_matrices
       with_matrices with_v_dt_K with_A with_B m_M m_M_llt m_K m_K0 m_K2
       m_C1 m_A m_B m_Ad m_Bd m_lambda m_w m_c m_v m_dt m_C m_D m_rr m_rf
       m_d1 m_d2 m_d3 m_recalculate_moore_parameters
       m_discrete_state_space_map].
  unfold second_order_matrix_t, o, n, m in *.
  rewrite !(BicycleFacts.solve_spd _ _ HM).
  cbn [Nat.ltb Nat.leb].
  generalize (mmul (inverse M) (madd (mscale g K0) (mscale (v * v) K2))).
  generalize (mmul (inverse M) (mscale v C1)).
  generalize (inverse M).
  intros Z Y X. LLTFacts.mat22 X. LLTFacts.mat22 Y. LLTFacts.mat22 Z.
  destruct (Req_dec_T dt 0) as [E|E].
  - cbv beta iota zeta.
    do 2 eexists. split; [reflexivity|].
    repeat match goal with |- _ /\ _ => split end; reflexivity.
  - unfold discrete_state_space_lookup.
    cbv beta zeta.
    cbn [with_matrices with_v_dt_K with_A with_B initialize_state_space_matrices
         m_discrete_state_space_map m_M_llt m_A m_B m_Ad m_Bd].
    destruct tbl as [table|];
      [match goal with
       | |- context [@lookup ?tk ?tv ?tm ?ti ?key ?tab] =>
           destruct (@lookup tk tv tm ti key tab) as [found|]
       end|];
      cbv beta iota zeta;
      do 2 eexists; (split; [reflexivity|]);
      repeat match goal with |- _ /\ _ => split end; reflexivity.
Qed.

(** [update_state(x, u, z)] drops [z] and returns [Ad*x + Bd*u]. *)
Lemma update_state_drops_measurement (b : object) (x : state_t) (u : input_t)
    (z1 z2 : output_t) :
  update_state b x u z1 = update_state b x u z2
  /\ update_state b x u z1 = vadd (mulv (m_Ad b) x) (mulv (m_Bd b) u).
Proof. split; reflexivity. Qed.

End Facts.

End DiscreteBicycleFacts.

(** ** Witnesses on the look-up test's table *)

Module DiscreteBicycleWitnesses.
Import Eigen LLT DiscreteBicycle DiscreteBicycleFacts Examples.

Lemma dt_nonzero : dt <> 0.
Proof. unfold dt. lra. Qed.

Lemma set_v_dt_zero_sample_time_witness :
  factor_available unit_discrete_bicycle
  /\ exists b' out,
       set_v_dt example_key (981 / 100) (1 / 1000000000000) (fun T => T)
                unit_discrete_bicycle vw 0
       = Some (b', out)
       /\ m_Ad b' = Identity n n /\ m_Bd b' = Zero n m.
Proof.
  assert (Hf : factor_available unit_discrete_bicycle) by (left; reflexivity).
  split; [exact Hf|].
  exact (proj1 (set_v_dt_zero_sample_time example_key (981 / 100)
                  (1 / 1000000000000) (fun T => T) unit_discrete_bicycle
                  vw Hf)).
Defined.

Lemma set_v_dt_takes_table_entry_witness :
  factor_available unit_discrete_bicycle
  /\ dt <> 0
  /\ m_discrete_state_space_map unit_discrete_bicycle = Some state_space_map
  /\ state_space_map !! example_key vw dt = Some (Ad_vw, Bd_vw)
  /\ exists b',
       set_v_dt example_key (981 / 100) (1 / 1000000000000) (fun T => T)
                unit_discrete_bicycle vw dt
       = Some (b', [])
       /\ m_Ad b' = Ad_vw /\ m_Bd b' = Bd_vw.
Proof.
  assert (Hf : factor_available unit_discrete_bicycle) by (left; reflexivity).
  assert (Hk : state_space_map !! example_key vw dt = Some (Ad_vw, Bd_vw))
    by (unfold state_space_map; apply lookup_singleton_eq).
  split; [exact Hf|]. split; [exact dt_nonzero|].
  split; [reflexivity|]. split; [exact Hk|].
  exact (proj1 (set_v_dt_takes_table_entry example_key (981 / 100)
                  (1 / 1000000000000) (fun T => T) (fun T => Zero 7 7)
                  unit_discrete_bicycle vw dt state_space_map Ad_vw Bd_vw
                  Hf dt_nonzero eq_refl Hk)).
Defined.

End DiscreteBicycleWitnesses.

(** ** The measurement argument of the state transitions *)

Module MeasurementFacts.
Import Eigen.

(** C9.  Neither state transition reads the measurement: in [src/bicycle.cc]
    [update_state(x, u, z)] is [Ad*x + Bd*u] for every [z], and
    [BicycleWhipple::integrate_state(t, x, u, z)] returns the same state (and
    leaves the stepper the same) for every [z]. *)
Theorem state_transition_ignores_measurement :
  (forall (state_space_map_key_t : Type)
          (eq_dec : EqDecision state_space_map_key_t)
          (countable : Countable state_space_map_key_t)
          (b : DiscreteBicycle.t (state_space_map_key_t := state_space_map_key_t))
          (x : DiscreteBicycle.state_t) (u : DiscreteBicycle.input_t)
          (z1 z2 : DiscreteBicycle.output_t),
      DiscreteBicycle.update_state b x u z1 = DiscreteBicycle.update_state b x u z2
      /\ DiscreteBicycle.update_state b x u z1
         = vadd (mulv (DiscreteBicycle.m_Ad b) x)
                (mulv (DiscreteBicycle.m_Bd b) u))
  /\ (forall (stepper_t : Type)
             (do_step : stepper_t ->
                        (vec (Bicycle.n + Bicycle.m) -> R ->
                         option (vec (Bicycle.n + Bicycle.m))) ->
                        vec (Bicycle.n + Bicycle.m) -> R -> R ->
                        option (vec (Bicycle.n + Bicycle.m) * stepper_t))
             (b : Bicycle.t) (stepper : stepper_t) (time : R)
             (x : Bicycle.state_t) (u : Bicycle.input_t)
             (z1 z2 : Bicycle.measurement_t),
        Bicycle.integrate_state stepper_t do_step b stepper time x u z1
        = Bicycle.integrate_state stepper_t do_step b stepper time x u z2).
Proof.
  split.
  - intros. apply DiscreteBicycleFacts.update_state_drops_measurement.
  - intros. reflexivity.
Qed.

End MeasurementFacts.

(** ** The measurement update of the Kalman filter *)

Module KalmanFacts.
Import Eigen Kalman.

Section Facts.

Context {T : Type} {n m l : nat} `{DiscreteLinear T n m l}
        `{InnovationSolve l}.

(** The gain step writes [m_K] alone, from the covariance it finds. *)
Lemma measurement_update_kalman_gain_R_frame (k : Kalman.t)
    (R : measurement_noise_covariance_t) :
  let k' := measurement_update_kalman_gain_R k R in
  m_system k' = m_system k /\ m_x k' = m_x k /\ m_P k' = m_P k
  /\ m_Q k' = m_Q k /\ m_R k' = m_R k.
Proof. destruct k. cbn. auto. Qed.



End Facts.



End KalmanFacts.

(** ** More on the angle normalisation *)

Module NormalizeMore.
Import Eigen Cmath CmathFacts NormalizeRange Bicycle.

(** X1.  With a positive [two_pi], each normalised angle is smaller than
    [two_pi] in magnitude and keeps the sign of the angle it replaces. *)
Theorem normalize_state_range (two_pi : R) (x : state_t)
    (i : state_index_t) :
  0 < two_pi ->
  i = yaw_angle \/ i = roll_angle \/ i = steer_angle ->
  - two_pi < vget (normalize_state two_pi x) (index i) < two_pi
  /\ (0 <= vget x (index i) ->
      0 <= vget (normalize_state two_pi x) (index i))
  /\ (vget x (index i) <= 0 ->
      vget (normalize_state two_pi x) (index i) <= 0).
Proof.
  intros Hp Hi. NormalizeFacts.vec5 x.
  destruct Hi as [ -> | [ -> | -> ] ]; unfold normalize_state; cbn;
    (split; [apply fmod_range; exact Hp | apply fmod_sign; exact Hp]).
Qed.

Lemma normalize_state_range_witness :
  0 < 2 * PI
  /\ (roll_angle = yaw_angle \/ roll_angle = roll_angle
      \/ roll_angle = steer_angle)
  /\ - (2 * PI)
     < vget (normalize_state (2 * PI) (7, (-40, (3, (9, (-9, tt))))))
            (index roll_angle)
     < 2 * PI.
Proof.
  assert (Hpos : 0 < 2 * PI) by (pose proof PI_RGT_0; lra).
  split; [exact Hpos|]. split; [right; left; reflexivity|].
  exact (proj1 (normalize_state_range (2 * PI) (7, (-40, (3, (9, (-9, tt)))))
                  roll_angle Hpos (or_intror (or_introl eq_refl)))).
Defined.

(** X2.  A state whose three angles are already smaller than [two_pi] in
    magnitude is returned as it is. *)
Theorem normalize_state_in_range (two_pi : R) (x : state_t) :
  0 < two_pi ->
  - two_pi < vget x (index yaw_angle) < two_pi ->
  - two_pi < vget x (index roll_angle) < two_pi ->
  - two_pi < vget x (index steer_angle) < two_pi ->
  normalize_state two_pi x = x.
Proof.
  intros Hp. NormalizeFacts.vec5 x. unfold normalize_state. cbn.
  intros H0 H1 H2.
  rewrite !fmod_small by assumption. reflexivity.
Qed.

Lemma normalize_state_in_range_witness :
  0 < 7
  /\ normalize_state 7 (6, (-6, (0, (100, (-100, tt)))))
     = (6, (-6, (0, (100, (-100, tt))))).
Proof.
  assert (Hpos : (0 < 7)%R) by lra.
  split; [exact Hpos|].
  apply (normalize_state_in_range 7 (6, (-6, (0, (100, (-100, tt))))) Hpos);
    cbn; lra.
Defined.

(** X3.  [normalize_output] wraps both outputs into the open interval of
    width [two_pi] around zero, by whole multiples of [two_pi], and applying
    it twice is applying it once. *)
Theorem normalize_output_wraps (two_pi : R) (y : output_t) :
  0 < two_pi ->
  normalize_output two_pi (normalize_output two_pi y)
  = normalize_output two_pi y
  /\ (forall i : output_index_t,
        - two_pi < vget (normalize_output two_pi y) (output_index i) < two_pi
        /\ exists k : Z,
             vget (normalize_output two_pi y) (output_index i)
             = vget y (output_index i) - IZR k * two_pi).
Proof.
  intros Hp. destruct y as [y0 [y1 []]]. unfold normalize_output. cbn.
  split.
  - rewrite !fmod_idempotent by exact Hp. reflexivity.
  - intros [|]; cbn; (split; [apply fmod_range; exact Hp
                              | apply fmod_congruent]).
Qed.

Lemma normalize_output_wraps_witness :
  0 < 2 * PI
  /\ normalize_output (2 * PI) (normalize_output (2 * PI) (50, (-50, tt)))
     = normalize_output (2 * PI) (50, (-50, tt)).
Proof.
  assert (Hpos : 0 < 2 * PI) by (pose proof PI_RGT_0; lra).
  split; [exact Hpos|].
  exact (proj1 (normalize_output_wraps (2 * PI) (50, (-50, tt)) Hpos)).
Defined.

(** X4.  [normalize_auxiliary_state] leaves the position of the rear contact
    alone, wraps the rear wheel angle and the pitch angle into the open
    interval of width [two_pi] around zero, and is idempotent. *)
Theorem normalize_auxiliary_state_wraps (two_pi : R)
    (x_aux : auxiliary_state_t) :
  0 < two_pi ->
  vget (normalize_auxiliary_state two_pi x_aux) (auxiliary_index aux_x)
  = vget x_aux (auxiliary_index aux_x)
  /\ vget (normalize_auxiliary_state two_pi x_aux) (auxiliary_index aux_y)
     = vget x_aux (auxiliary_index aux_y)
  /\ - two_pi
     < vget (normalize_auxiliary_state two_pi x_aux)
            (auxiliary_index aux_rear_wheel_angle)
     < two_pi
  /\ - two_pi
     < vget (normalize_auxiliary_state two_pi x_aux)
            (auxiliary_index aux_pitch_angle)
     < two_pi
  /\ normalize_auxiliary_state two_pi (normalize_auxiliary_state two_pi x_aux)
     = normalize_auxiliary_state two_pi x_aux.
Proof.
  intros Hp. destruct x_aux as [a0 [a1 [a2 [a3 []]]]].
  unfold normalize_auxiliary_state. cbn.
  repeat match goal with |- _ /\ _ => split end;
    try reflexivity; try (apply fmod_range; exact Hp).
  rewrite !fmod_idempotent by exact Hp. reflexivity.
Qed.

Lemma normalize_auxiliary_state_wraps_witness :
  0 < 2 * PI
  /\ vget (normalize_auxiliary_state (2 * PI) (1000, (-2000, (30, (-30, tt)))))
          (auxiliary_index aux_x)
     = 1000.
Proof.
  assert (Hpos : 0 < 2 * PI) by (pose proof PI_RGT_0; lra).
  split; [exact Hpos|].
  exact (proj1 (normalize_auxiliary_state_wraps (2 * PI)
                  (1000, (-2000, (30, (-30, tt)))) Hpos)).
Defined.

End NormalizeMore.

(** ** More on [src/bicycle/bicycle.cc] *)

Module BicycleMore.
Import Eigen LLT LLTFacts Bicycle BicycleFacts BicycleAuxiliary.

Lemma moore_sum (w c rr rf s k : R) :
  k <> 0 ->
  k * (c + w - rr * (s / k)) + - k * (c - rf * (s / k))
  = w * k - (rr - rf) * s.
Proof. intros Hk. field. exact Hk. Qed.

Lemma moore_d2 (w c rr rf s k : R) :
  k <> 0 -> s * s + k * k = 1 ->
  (rr + k * (c + w - rr * (s / k)) * s - rf
   + - k * (c - rf * (s / k)) * s) / k
  = w * s + (rr - rf) * k.
Proof.
  intros Hk Hsc.
  apply Rmult_eq_reg_r with (r := k); [|exact Hk].
  transitivity ((rr - rf) * (1 - s * s) + w * k * s).
  - field. exact Hk.
  - replace (1 - s * s) with (k * k) by lra. ring.
Qed.

(** X5.  Where the steer axis is not horizontal, the Moore parameters are
    the wheelbase and the difference of the wheel radii turned by the steer
    axis tilt: [d1 + d3] and [d2] do not depend on the trail, and their
    squares add up to [w^2 + (rr - rf)^2].  The call clears the Moore flag
    and writes nothing but [d1], [d2], [d3]. *)
Theorem moore_parameters_rotate (b : t) :
  cos (m_lambda b) <> 0 ->
  m_d1 (set_moore_parameters b) + m_d3 (set_moore_parameters b)
  = m_w b * cos (m_lambda b) - (m_rr b - m_rf b) * sin (m_lambda b)
  /\ m_d2 (set_moore_parameters b)
     = m_w b * sin (m_lambda b) + (m_rr b - m_rf b) * cos (m_lambda b)
  /\ (m_d1 (set_moore_parameters b) + m_d3 (set_moore_parameters b))
     * (m_d1 (set_moore_parameters b) + m_d3 (set_moore_parameters b))
     + m_d2 (set_moore_parameters b) * m_d2 (set_moore_parameters b)
     = m_w b * m_w b + (m_rr b - m_rf b) * (m_rr b - m_rf b)
  /\ need_recalculate_moore_parameters (set_moore_parameters b) = false
  /\ set_moore_parameters b
     = mk (m_v b) (m_M b) (m_C1 b) (m_K0 b) (m_K2 b) (m_w b) (m_c b)
          (m_lambda b) (m_rr b) (m_rf b)
          (m_d1 (set_moore_parameters b)) (m_d2 (set_moore_parameters b))
          (m_d3 (set_moore_parameters b))
          (m_recalculate_state_space b) false
          (m_M_llt b) (m_A b) (m_B b) (m_C b) (m_D b).
Proof.
  intros Hc.
  destruct b as [v M C1 K0 K2 w c lam rr rf d1 d2 d3 f1 f2 llt A0 B0 C0 D0].
  cbn in Hc.
  pose proof (sin2_cos2 lam) as Hsc. unfold Rsqr in Hsc.
  pose proof (moore_sum w c rr rf (sin lam) (cos lam) Hc) as E13.
  pose proof (moore_d2 w c rr rf (sin lam) (cos lam) Hc Hsc) as E2.
  split; [|split; [|split; [|split; reflexivity]]]; cbn; unfold tan.
  - exact E13.
  - exact E2.
  - rewrite E13, E2.
    transitivity ((w * w + (rr - rf) * (rr - rf))
                  * (sin lam * sin lam + cos lam * cos lam)).
    + ring.
    + rewrite Hsc. ring.
Qed.

Lemma moore_parameters_rotate_witness :
  cos (m_lambda Examples.unit_bicycle) <> 0
  /\ m_d2 (set_moore_parameters Examples.unit_bicycle)
     = m_w Examples.unit_bicycle * sin (m_lambda Examples.unit_bicycle)
       + (m_rr Examples.unit_bicycle - m_rf Examples.unit_bicycle)
         * cos (m_lambda Examples.unit_bicycle).
Proof.
  assert (Hc : cos (m_lambda Examples.unit_bicycle) <> 0).
  { cbn. rewrite cos_0. lra. }
  split; [exact Hc|].
  exact (proj1 (proj2 (moore_parameters_rotate Examples.unit_bicycle Hc))).
Defined.

(** X6.  Recomputing twice is recomputing once: a second [set_state_space]
    returns the object the first one returned. *)
Theorem set_state_space_idempotent (g : R) (b b' : t) :
  set_state_space g b = Some b' -> set_state_space g b' = Some b'.
Proof.
  destruct b as [v M C1 K0 K2 w c lam rr rf d1 d2 d3 f1 f2 llt A0 B0 C0 D0].
  unfold set_state_space at 1.
  cbn [m_v m_M m_C1 m_K0 m_K2 m_M_llt m_A m_B m_lambda m_w m_c].
  destruct llt as [L|]; cbn [solve]; [|discriminate].
  intros E. injection E as <-.
  unfold set_state_space, with_state_space.
  cbn [m_v m_M m_C1 m_K0 m_K2 m_M_llt m_A m_B m_lambda m_w m_c m_rr m_rf
       m_d1 m_d2 m_d3 m_recalculate_moore_parameters m_C m_D solve].
  unfold second_order_matrix_t, o, n, m in *.
  generalize (solve_columns L (madd (mscale g K0) (mscale (v * v) K2))).
  generalize (solve_columns L (mscale v C1)).
  generalize (inverse M).
  intros Z Y X. mat55 A0. mat52 B0. mat22 X. mat22 Y. mat22 Z.
  reflexivity.
Qed.

Lemma set_state_space_idempotent_witness :
  exists b',
    set_state_space (981 / 100) Examples.unit_bicycle_dirty = Some b'
    /\ set_state_space (981 / 100) b' = Some b'.
Proof.
  eexists. split.
  - reflexivity.
  - apply (set_state_space_idempotent (981 / 100) Examples.unit_bicycle_dirty).
    reflexivity.
Defined.

(** X7.  What the recompute never writes: the first column of [A] (the yaw
    angle drives nothing), the entries (0,1) and (0,3), the block of rows 1-2
    and columns 1-2, and the first three rows of [B]; the block of rows 1-2
    and columns 3-4 is set to the identity every time. *)
Theorem set_state_space_frame (g : R) (b b' : t) :
  set_state_space g b = Some b' ->
  (forall i : nat, mget (A b') i 0 = mget (A b) i 0)
  /\ mget (A b') 0 1 = mget (A b) 0 1
  /\ mget (A b') 0 3 = mget (A b) 0 3
  /\ block 2 2 (A b') 1 1 = block 2 2 (A b) 1 1
  /\ block 2 2 (A b') 1 3 = Identity 2 2
  /\ block 3 2 (B b') 0 0 = block 3 2 (B b) 0 0
  /\ (C b', D b') = (C b, D b)
  /\ (m_d1 b', m_d2 b', m_d3 b', need_recalculate_moore_parameters b')
     = (m_d1 b, m_d2 b, m_d3 b, need_recalculate_moore_parameters b).
Proof.
  destruct b as [v M C1 K0 K2 w c lam rr rf d1 d2 d3 f1 f2 llt A0 B0 C0 D0].
  unfold set_state_space.
  cbn [m_v m_M m_C1 m_K0 m_K2 m_M_llt m_A m_B m_lambda m_w m_c].
  destruct llt as [L|]; cbn [solve]; [|discriminate].
  intros E. injection E as <-.
  unfold with_state_space, A, B, C, D, need_recalculate_moore_parameters.
  cbn [m_v m_M m_C1 m_K0 m_K2 m_M_llt m_A m_B m_lambda m_w m_c m_rr m_rf
       m_d1 m_d2 m_d3 m_recalculate_moore_parameters m_C m_D].
  unfold second_order_matrix_t, o, n, m in *.
  generalize (solve_columns L (madd (mscale g K0) (mscale (v * v) K2))).
  generalize (solve_columns L (mscale v C1)).
  generalize (inverse M).
  intros Z Y X. mat55 A0. mat52 B0. mat22 X. mat22 Y. mat22 Z.
  repeat match goal with |- _ /\ _ => split end; try reflexivity.
  intros i. destruct i as [|[|[|[|[|i]]]]]; reflexivity.
Qed.

Lemma set_state_space_frame_witness :
  exists b',
    set_state_space (981 / 100) Examples.unit_bicycle_dirty = Some b'
    /\ block 2 2 (A b') 1 3 = Identity 2 2.
Proof.
  eexists. split.
  - reflexivity.
  - refine (proj1 (proj2 (proj2 (proj2 (proj2
      (set_state_space_frame (981 / 100) Examples.unit_bicycle_dirty _ _)))))).
    reflexivity.
Defined.

(** X8.  [set_M(M, true)] with a symmetric positive definite [M] puts any
    object right, also one that holds no factor yet: it factors [M],
    recomputes, clears the flag and leaves the blocks of the source's
    comment in [A] and [M^-1] in the last rows of [B]. *)
Theorem set_M_recalculate (g : R) (b : t) (M0 : second_order_matrix_t) :
  spd M0 ->
  exists b',
    set_M g b M0 true = Some b'
    /\ need_recalculate_state_space b' = false
    /\ M b' = M0
    /\ m_M_llt b' = compute M0
    /\ mget (A b') 0 (index steer_angle) = m_v b * cos (m_lambda b) / m_w b
    /\ block 2 2 (A b') 3 1
       = mopp (mmul (inverse M0)
                    (madd (mscale g (m_K0 b))
                          (mscale (m_v b * m_v b) (m_K2 b))))
    /\ bottomRightCorner 2 2 (A b')
       = mopp (mmul (inverse M0) (mscale (m_v b) (m_C1 b)))
    /\ bottomRows 2 (B b') = inverse M0.
Proof.
  intros HM.
  destruct b as [v M1 C1 K0 K2 w c lam rr rf d1 d2 d3 f1 f2 llt A0 B0 C0 D0].
  destruct (set_state_space_spec g
              (with_M (mk v M1 C1 K0 K2 w c lam rr rf d1 d2 d3 f1 f2 llt
                          A0 B0 C0 D0) M0 (compute M0)))
    as (b' & E & Hflag & Hpar & Hllt & H02 & H31 & H33 & HB);
    [reflexivity | exact HM |].
  cbn in Hpar, Hllt, H02, H31, H33, HB.
  exists b'. unfold set_M, M. cbn.
  injection Hpar as Ev EM EC1 EK0 EK2.
  repeat match goal with |- _ /\ _ => split end; assumption.
Qed.

Lemma set_M_recalculate_witness :
  spd (Identity 2 2)
  /\ exists b',
       set_M (981 / 100)
             (mk 0 (Zero 2 2) (Zero 2 2) (Zero 2 2) (Zero 2 2) 1 0 0 1 1
                 1 0 0 true false default (Zero 5 5) (Zero 5 2)
                 Examples.C_yaw_steer Examples.D_none)
             (Identity 2 2) true = Some b'
       /\ need_recalculate_state_space b' = false.
Proof.
  split; [exact spd_Identity|].
  destruct (set_M_recalculate (981 / 100)
              (mk 0 (Zero 2 2) (Zero 2 2) (Zero 2 2) (Zero 2 2) 1 0 0 1 1
                  1 0 0 true false default (Zero 5 5) (Zero 5 2)
                  Examples.C_yaw_steer Examples.D_none)
              (Identity 2 2) spd_Identity) as (b' & E & Hflag & _).
  exists b'. split; [exact E | exact Hflag].
Defined.

(** X9.  Deferring is sound: a mutator called with the recompute flag true
    does what the same mutator called with false followed by the recompute
    does (for the geometry, by [set_moore_parameters] and then the
    recompute; for the wheel radii, by [set_moore_parameters]). *)
Theorem recalculate_now_is_defer_then_recompute
    (g : R) (b : t) (X : second_order_matrix_t) (r : R) :
  set_C1 g b X true = (do b1 <- set_C1 g b X false; set_state_space g b1)
  /\ set_K0 g b X true = (do b1 <- set_K0 g b X false; set_state_space g b1)
  /\ set_K2 g b X true = (do b1 <- set_K2 g b X false; set_state_space g b1)
  /\ set_M g b X true = (do b1 <- set_M g b X false; set_state_space g b1)
  /\ set_wheelbase g b r true
     = (do b1 <- set_wheelbase g b r false;
        set_state_space g (set_moore_parameters b1))
  /\ set_trail g b r true
     = (do b1 <- set_trail g b r false;
        set_state_space g (set_moore_parameters b1))
  /\ set_steer_axis_tilt g b r true
     = (do b1 <- set_steer_axis_tilt g b r false;
        set_state_space g (set_moore_parameters b1))
  /\ set_rear_wheel_radius b r true
     = (do b1 <- set_rear_wheel_radius b r false;
        Some (set_moore_parameters b1))
  /\ set_front_wheel_radius b r true
     = (do b1 <- set_front_wheel_radius b r false;
        Some (set_moore_parameters b1)).
Proof.
  destruct b as [v M C1 K0 K2 w c lam rr rf d1 d2 d3 f1 f2 llt A0 B0 C0 D0].
  repeat match goal with |- _ /\ _ => split end; reflexivity.
Qed.

(** X10.  Batching is sound: replacing the damping and then the stiffness
    matrix with the recompute deferred and recomputing once gives the object
    that recomputing after each replacement gives. *)
Theorem deferred_batch_is_stepwise
    (g : R) (b : t) (X Y : second_order_matrix_t) :
  (do b1 <- set_C1 g b X false;
   do b2 <- set_K0 g b1 Y false;
   set_state_space g b2)
  = (do b1 <- set_C1 g b X true; set_K0 g b1 Y true).
Proof.
  destruct b as [v M C1 K0 K2 w c lam rr rf d1 d2 d3 f1 f2 llt A0 B0 C0 D0].
  destruct llt as [L|]; [|reflexivity].
  cbv [set_C1 set_K0 set_state_space with_C1 with_K0
       with_recalculate_state_space with_state_space solve
       m_v m_M m_C1 m_K0 m_K2 m_M_llt m_A m_B m_lambda m_w m_c m_rr m_rf
       m_d1 m_d2 m_d3 m_recalculate_moore_parameters m_C m_D
       m_recalculate_state_space second_order_matrix_t o n m].
  generalize (solve_columns L (madd (mscale g K0) (mscale (v * v) K2))).
  generalize (solve_columns L (madd (mscale g Y) (mscale (v * v) K2))).
  generalize (solve_columns L (mscale v X)).
  generalize (inverse M).
  intros Z Y1 X1 X0. mat55 A0. mat52 B0.
  mat22 Z. mat22 Y1. mat22 X1. mat22 X0.
  reflexivity.
Qed.

(** X11.  The right-hand side [integrate_state] gives its stepper is the
    linear system the comment in the source writes: on an object whose
    factor is that of a symmetric positive definite [M] and whose [B] holds
    [M^-1] under three rows of zeros, the derivative of the state is
    [A*x + B*u] and the input is held constant. *)
Theorem whipple_system_is_linear (b : t) (x : state_t) (u : input_t)
    (time : R) :
  m_M_llt b = compute (m_M b) ->
  spd (m_M b) ->
  m_B b = set_block (Zero n m) (n - o) 0 (inverse (m_M b)) ->
  whipple_system b (vcat x u) time
  = Some (vcat (vadd (mulv (m_A b) x) (mulv (m_B b) u)) (vzero m)).
Proof.
  destruct b as [v M C1 K0 K2 w c lam rr rf d1 d2 d3 f1 f2 llt A0 B0 C0 D0].
  cbn [m_M_llt m_M m_B m_A]. intros Hllt HM HB. subst llt B0.
  unfold whipple_system. cbn [m_M_llt m_A].
  unfold solve_vec, compute.
  rewrite (solve_vector_spd M _ HM).
  generalize (inverse M). intros Z.
  NormalizeFacts.vec5 x. destruct u as [u0 [u1 []]]. mat55 A0. mat22 Z.
  cbn. apply f_equal.
  repeat (apply (f_equal2 pair); [ring|]). reflexivity.
Qed.

Lemma whipple_system_is_linear_witness :
  m_M_llt Examples.unit_bicycle = compute (m_M Examples.unit_bicycle)
  /\ spd (m_M Examples.unit_bicycle)
  /\ m_B Examples.unit_bicycle
     = set_block (Zero n m) (n - o) 0 (inverse (m_M Examples.unit_bicycle))
  /\ whipple_system Examples.unit_bicycle
       (vcat ((1, (2, (3, (4, (5, tt))))) : state_t) ((6, (7, tt)) : input_t))
       0
     = Some (vcat (vadd (mulv (m_A Examples.unit_bicycle)
                              (1, (2, (3, (4, (5, tt))))))
                        (mulv (m_B Examples.unit_bicycle) (6, (7, tt))))
                  (vzero m)).
Proof.
  assert (HB : m_B Examples.unit_bicycle
               = set_block (Zero n m) (n - o) 0
                   (inverse (m_M Examples.unit_bicycle))).
  { cbv - [Rplus Rmult Rminus Rdiv Ropp Rinv IZR].
    repeat f_equal; field. }
  split; [reflexivity|]. split; [exact spd_Identity|]. split; [exact HB|].
  exact (whipple_system_is_linear Examples.unit_bicycle
           (1, (2, (3, (4, (5, tt))))) (6, (7, tt)) 0
           eq_refl spd_Identity HB).
Defined.

(** X12.  The right-hand side of the auxiliary integration: the rear contact
    moves at the forward speed, the rear wheel rolls without slipping, the
    pitch angle and the five states have derivative zero, and nothing of the
    previous content of [dxdt] is left. *)
Theorem auxiliary_system_kinematics (b : t) (x dxdt : full_state_t)
    (time : R) :
  vget (auxiliary_system b x dxdt time) (full_index full_x)
  * vget (auxiliary_system b x dxdt time) (full_index full_x)
  + vget (auxiliary_system b x dxdt time) (full_index full_y)
    * vget (auxiliary_system b x dxdt time) (full_index full_y)
  = m_v b * m_v b
  /\ (m_rr b <> 0 ->
      vget (auxiliary_system b x dxdt time) (full_index full_rear_wheel_angle)
      * m_rr b = - m_v b)
  /\ (forall i : nat, (3 <= i)%nat ->
        vget (auxiliary_system b x dxdt time) i = 0)
  /\ (forall dxdt' : full_state_t,
        auxiliary_system b x dxdt' time = auxiliary_system b x dxdt time).
Proof.
  destruct x as [x0 [x1 [x2 [x3 [x4 [x5 [x6 [x7 [x8 []]]]]]]]]].
  destruct dxdt as [e0 [e1 [e2 [e3 [e4 [e5 [e6 [e7 [e8 []]]]]]]]]].
  unfold auxiliary_system. cbn.
  pose proof (sin2_cos2 x4) as Hsc. unfold Rsqr in Hsc.
  repeat match goal with |- _ /\ _ => split end.
  - transitivity (m_v b * m_v b * (sin x4 * sin x4 + cos x4 * cos x4)).
    + ring.
    + rewrite Hsc. ring.
  - intros Hrr. field. exact Hrr.
  - intros i Hi.
    destruct i as [|[|[|[|[|[|[|[|[|i]]]]]]]]]; try lia; reflexivity.
  - intros dxdt'.
    destruct dxdt' as [f0 [f1 [f2 [f3 [f4 [f5 [f6 [f7 [f8 []]]]]]]]]].
    reflexivity.
Qed.

(** X13.  On an object that holds no factor, every call that recomputes
    stops at the assertion of [LLT::solve] that a factor is there (the
    model's [None]; a build without assertions reads an indeterminate factor
    instead): the recompute itself, the speed setter, and the mutators of
    [C1], [K0], [K2], wheelbase, trail and tilt called with the flag true.
    [set_M] with the flag true factors first and goes through, and so do all
    nine mutators with the flag false and the wheel radii with either
    flag. *)
Theorem recompute_needs_factor
    (g : R) (b : t) (X : second_order_matrix_t) (r : R) :
  m_M_llt b = None ->
  set_state_space g b = None
  /\ set_v g b r = None
  /\ set_C1 g b X true = None
  /\ set_K0 g b X true = None
  /\ set_K2 g b X true = None
  /\ set_wheelbase g b r true = None
  /\ set_trail g b r true = None
  /\ set_steer_axis_tilt g b r true = None
  /\ set_M g b X true <> None
  /\ set_M g b X false <> None
  /\ set_C1 g b X false <> None
  /\ set_K0 g b X false <> None
  /\ set_K2 g b X false <> None
  /\ set_wheelbase g b r false <> None
  /\ set_trail g b r false <> None
  /\ set_steer_axis_tilt g b r false <> None
  /\ set_rear_wheel_radius b r false <> None
  /\ set_front_wheel_radius b r false <> None
  /\ set_rear_wheel_radius b r true <> None
  /\ set_front_wheel_radius b r true <> None.
Proof.
  destruct b as [v M C1 K0 K2 w c lam rr rf d1 d2 d3 f1 f2 llt A0 B0 C0 D0].
  cbn [m_M_llt]. intros ->.
  repeat match goal with |- _ /\ _ => split end;
    try reflexivity; discriminate.
Qed.

Lemma recompute_needs_factor_witness :
  m_M_llt (mk 0 (Identity 2 2) (Zero 2 2) (Zero 2 2) (Zero 2 2) 1 0 0 1 1
              1 0 0 true false default (Zero 5 5) (Zero 5 2)
              Examples.C_yaw_steer Examples.D_none) = None
  /\ set_v (981 / 100)
           (mk 0 (Identity 2 2) (Zero 2 2) (Zero 2 2) (Zero 2 2) 1 0 0 1 1
               1 0 0 true false default (Zero 5 5) (Zero 5 2)
               Examples.C_yaw_steer Examples.D_none) 4 = None.
Proof.
  split; [reflexivity|].
  exact (proj1 (proj2 (recompute_needs_factor (981 / 100)
                  (mk 0 (Identity 2 2) (Zero 2 2) (Zero 2 2) (Zero 2 2)
                      1 0 0 1 1 1 0 0 true false default (Zero 5 5)
                      (Zero 5 2) Examples.C_yaw_steer Examples.D_none)
                  (Zero 2 2) 4 eq_refl))).
Defined.

End BicycleMore.

(** ** More on [src/bicycle.cc] *)

Module DiscreteBicycleMore.
Import Eigen LLT LLTFacts DiscreteBicycle DiscreteBicycleParts.

Section Facts.

Context {state_space_map_key_t : Type}.
Context `{Countable state_space_map_key_t}.
Variable make_state_space_map_key : R -> R -> state_space_map_key_t.
Variable g : R.
Variable discretization_precision : R.
Variable exp : discretization_matrix_t -> discretization_matrix_t.

Local Abbreviation object :=
  (DiscreteBicycle.t (state_space_map_key_t := state_space_map_key_t)).

(** [set_v_dt] is its two halves run one after the other. *)
Lemma set_v_dt_split (b : object) (v dt : R) :
  set_v_dt make_state_space_map_key g discretization_precision exp b v dt
  = (do b1 <- continuous_part g b v dt;
     Some (with_recalculate_state_space
             (fst (discrete_part make_state_space_map_key
                     discretization_precision exp b1 v dt)) false,
           snd (discrete_part make_state_space_map_key
                  discretization_precision exp b1 v dt))).
Proof.
  destruct b as [v0 dt0 M C1 K0 K2 K w c lam rr rf d1 d2 d3 f1 f2 llt
                 A0 B0 Ad1 Bd1 C0 D0 tbl].
  unfold set_v_dt, continuous_part, discrete_part, augmented.
  destruct f1; [|destruct llt as [L|]; [|reflexivity]];
    cbv beta iota zeta delta
      [m_recalculate_state_space initialize_state_space_matrices
       with_matrices with_v_dt_K with_A with_B m_M m_M_llt m_K m_K0 m_K2
       m_C1 m_A m_B m_Ad m_Bd m_lambda m_w m_c m_v m_dt m_C m_D m_rr m_rf
       m_d1 m_d2 m_d3 m_recalculate_moore_parameters
       m_discrete_state_space_map solve compute Nat.ltb Nat.leb o n m];
    destruct (Req_dec_T dt 0); [reflexivity| |reflexivity|];
    match goal with
    | |- context [discrete_state_space_lookup ?b0 ?k0] =>
        destruct (discrete_state_space_lookup b0 k0) as [[|] b2]
    end; reflexivity.
Qed.

(** The first half on an object that can solve: it succeeds, keeps a
    factor, stores [v], [dt] and the stiffness, and leaves the parameters,
    the output matrices and the table alone. *)
Lemma continuous_part_some (b : object) (v dt : R) :
  factor_available b ->
  exists b1,
    continuous_part g b v dt = Some b1
    /\ m_M_llt b1 <> None
    /\ (m_recalculate_state_space b = true -> m_M_llt b1 = compute (m_M b))
    /\ m_v b1 = v /\ m_dt b1 = dt
    /\ m_K b1 = madd (mscale g (m_K0 b)) (mscale (v * v) (m_K2 b))
    /\ (m_M b1, m_C1 b1, m_K0 b1, m_K2 b1) = (m_M b, m_C1 b, m_K0 b, m_K2 b)
    /\ (m_w b1, m_c b1, m_lambda b1, m_rr b1, m_rf b1)
       = (m_w b, m_c b, m_lambda b, m_rr b, m_rf b)
    /\ (m_d1 b1, m_d2 b1, m_d3 b1, m_recalculate_moore_parameters b1)
       = (m_d1 b, m_d2 b, m_d3 b, m_recalculate_moore_parameters b)
    /\ (m_C b1, m_D b1) = (m_C b, m_D b)
    /\ m_discrete_state_space_map b1 = m_discrete_state_space_map b.
Proof.
  destruct b as [v0 dt0 M C1 K0 K2 K w c lam rr rf d1 d2 d3 f1 f2 llt
                 A0 B0 Ad1 Bd1 C0 D0 tbl].
  unfold factor_available, continuous_part. cbn [m_recalculate_state_space m_M_llt].
  intros Hf.
  destruct f1; [|destruct Hf as [Hf|Hf]; [discriminate|];
                 destruct llt as [L|]; [|exfalso; apply Hf; reflexivity]];
    cbv beta iota zeta delta
      [m_recalculate_state_space initialize_state_space_matrices
       with_matrices with_v_dt_K with_A with_B m_M m_M_llt m_K m_K0 m_K2
       m_C1 m_A m_B m_Ad m_Bd m_lambda m_w m_c m_v m_dt m_C m_D m_rr m_rf
       m_d1 m_d2 m_d3 m_recalculate_moore_parameters
       m_discrete_state_space_map solve compute Nat.ltb Nat.leb o n m];
    eexists; (split; [reflexivity|]);
    cbv beta iota zeta delta
      [m_recalculate_state_space m_M m_M_llt m_K m_K0 m_K2
       m_C1 m_lambda m_w m_c m_v m_dt m_C m_D m_rr m_rf
       m_d1 m_d2 m_d3 m_recalculate_moore_parameters
       m_discrete_state_space_map];
    repeat match goal with |- _ /\ _ => split end;
    try reflexivity; try discriminate.
Qed.

(** The sample time enters the first half only as the stored [m_dt]. *)
Lemma continuous_part_dt (b : object) (v dt dt' : R) :
  continuous_part g b v dt'
  = (do b1 <- continuous_part g b v dt; Some (with_v_dt_K b1 v dt' (m_K b1))).
Proof.
  destruct b as [v0 dt0 M C1 K0 K2 K w c lam rr rf d1 d2 d3 f1 f2 llt
                 A0 B0 Ad1 Bd1 C0 D0 tbl].
  unfold continuous_part.
  destruct f1; [|destruct llt as [L|]; [|reflexivity]]; reflexivity.
Qed.

(** The second half writes [Ad] and [Bd] and nothing else. *)
Lemma discrete_part_frame (b : object) (v dt : R) :
  fst (discrete_part make_state_space_map_key discretization_precision exp
         b v dt)
  = with_Ad_Bd b
      (m_Ad (fst (discrete_part make_state_space_map_key
                    discretization_precision exp b v dt)))
      (m_Bd (fst (discrete_part make_state_space_map_key
                    discretization_precision exp b v dt))).
Proof.
  unfold discrete_part.
  destruct (Req_dec_T dt 0); [destruct b; reflexivity|].
  unfold discrete_state_space_lookup.
  destruct (m_discrete_state_space_map b) as [table|] eqn:Et;
    [destruct (table !! make_state_space_map_key v dt) as [found|]|];
    destruct b; reflexivity.
Qed.

Lemma discrete_part_out (b : object) (v dt : R) :
  (length (snd (discrete_part make_state_space_map_key
                  discretization_precision exp b v dt)) <= 1)%nat.
Proof.
  unfold discrete_part.
  destruct (Req_dec_T dt 0); [cbn; lia|].
  destruct (discrete_state_space_lookup b (make_state_space_map_key v dt))
    as [[|] b2]; [cbn; lia|].
  cbv beta iota zeta. cbn [snd].
  match goal with |- context [if ?c then _ else _] => destruct c end;
    cbn; lia.
Qed.

(** The whole of [set_v_dt] on an object that can solve. *)
Lemma set_v_dt_some (b : object) (v dt : R) :
  factor_available b ->
  exists b' out,
    set_v_dt make_state_space_map_key g discretization_precision exp b v dt
    = Some (b', out)
    /\ m_M_llt b' <> None
    /\ (m_recalculate_state_space b = true -> m_M_llt b' = compute (m_M b))
    /\ m_recalculate_state_space b' = false
    /\ m_v b' = v /\ m_dt b' = dt
    /\ m_K b' = madd (mscale g (m_K0 b)) (mscale (v * v) (m_K2 b))
    /\ (m_M b', m_C1 b', m_K0 b', m_K2 b') = (m_M b, m_C1 b, m_K0 b, m_K2 b)
    /\ (m_w b', m_c b', m_lambda b', m_rr b', m_rf b')
       = (m_w b, m_c b, m_lambda b, m_rr b, m_rf b)
    /\ (m_d1 b', m_d2 b', m_d3 b', m_recalculate_moore_parameters b')
       = (m_d1 b, m_d2 b, m_d3 b, m_recalculate_moore_parameters b)
    /\ (m_C b', m_D b') = (m_C b, m_D b)
    /\ m_discrete_state_space_map b' = m_discrete_state_space_map b
    /\ (length out <= 1)%nat.
Proof.
  intros Hf.
  destruct (continuous_part_some b v dt Hf)
    as (b1 & E1 & Hl & Hl' & Hv & Hdt & HK & HP & HG & HD & HC & HT).
  rewrite set_v_dt_split, E1.
  do 2 eexists. split; [reflexivity|].
  rewrite discrete_part_frame.
  generalize (m_Ad (fst (discrete_part make_state_space_map_key
                           discretization_precision exp b1 v dt))).
  generalize (m_Bd (fst (discrete_part make_state_space_map_key
                           discretization_precision exp b1 v dt))).
  intros Bd' Ad'.
  destruct b1. cbn in *.
  repeat match goal with |- _ /\ _ => split end; try assumption;
    try reflexivity.
  apply discrete_part_out.
Qed.

(** X14.  The constructor of [src/bicycle.cc] always succeeds: its
    [set_v_dt] runs with the flag up, factors the mass matrix first, and
    leaves an object with the parameters as given, the speed and sample time
    stored, both flags down and at most one warning printed. *)
Theorem Bicycle_constructor_succeeds
    (M C1 K0 K2 : second_order_matrix_t) (w c lambda rr rf v dt : R)
    (default_C : output_matrix_t) (default_D : feedthrough_matrix_t)
    (table : option (gmap state_space_map_key_t
                          (state_matrix_t * input_matrix_t))) :
  exists b' out,
    Bicycle make_state_space_map_key g discretization_precision exp
            M C1 K0 K2 w c lambda rr rf v dt default_C default_D table
    = Some (b', out)
    /\ m_M_llt b' = compute M
    /\ m_recalculate_state_space b' = false
    /\ m_recalculate_moore_parameters b' = false
    /\ m_v b' = v /\ m_dt b' = dt
    /\ m_K b' = madd (mscale g K0) (mscale (v * v) K2)
    /\ (m_M b', m_C1 b', m_K0 b', m_K2 b') = (M, C1, K0, K2)
    /\ (m_w b', m_c b', m_lambda b', m_rr b', m_rf b')
       = (w, c, lambda, rr, rf)
    /\ (m_C b', m_D b') = (default_C, default_D)
    /\ m_discrete_state_space_map b' = table
    /\ (length out <= 1)%nat.
Proof.
  unfold Bicycle.
  match goal with |- context [set_v_dt _ _ _ _ ?b0 v dt] =>
    destruct (set_v_dt_some b0 v dt)
      as (b' & out & E & Hl & Hl' & Hf & Hv & Hdt & HK & HP & HG & HD
          & HC & HT & Ho)
  end.
  - left. reflexivity.
  - exists b', out. cbn in Hl', HK, HP, HG, HD, HC, HT.
    injection HD as E1 E2 E3 E4.
    repeat match goal with |- _ /\ _ => split end; auto.
Qed.

(** X15.  Once a factor is available [set_v_dt] cannot fail, and a factor is
    available afterwards: the call returns an object with the flag down, the
    new speed and sample time, the stiffness [g*K0 + v^2*K2], and the
    physical parameters and the caller's table as they were; it prints at
    most one warning. *)
Theorem set_v_dt_total (b : object) (v dt : R) :
  factor_available b ->
  exists b' out,
    set_v_dt make_state_space_map_key g discretization_precision exp b v dt
    = Some (b', out)
    /\ factor_available b'
    /\ m_recalculate_state_space b' = false
    /\ m_v b' = v /\ m_dt b' = dt
    /\ m_K b' = madd (mscale g (m_K0 b)) (mscale (v * v) (m_K2 b))
    /\ (m_M b', m_C1 b', m_K0 b', m_K2 b') = (m_M b, m_C1 b, m_K0 b, m_K2 b)
    /\ (m_w b', m_c b', m_lambda b', m_rr b', m_rf b')
       = (m_w b, m_c b, m_lambda b, m_rr b, m_rf b)
    /\ m_discrete_state_space_map b' = m_discrete_state_space_map b
    /\ (length out <= 1)%nat.
Proof.
  intros Hfa.
  destruct (set_v_dt_some b v dt Hfa)
    as (b' & out & E & Hl & Hl' & Hf & Hv & Hdt & HK & HP & HG & HD
        & HC & HT & Ho).
  exists b', out.
  repeat match goal with |- _ /\ _ => split end; auto.
  right. exact Hl.
Qed.

(** X16.  After [set_v_dt(v, 0)] the state transition does not move the
    state: [update_state] returns [x] for every input and measurement. *)
Theorem zero_sample_time_holds_state (b : object) (v : R)
    (x : state_t) (u : input_t) (z : output_t) :
  factor_available b ->
  exists b' out,
    set_v_dt make_state_space_map_key g discretization_precision exp b v 0
    = Some (b', out)
    /\ update_state b' x u z = x
    /\ update_state_x b' x = x.
Proof.
  intros Hf.
  destruct (DiscreteBicycleFacts.set_v_dt_zero make_state_space_map_key g
              discretization_precision exp b v Hf)
    as (b' & E & HA & HB & _).
  exists b', []. split; [exact E|].
  unfold update_state, update_state_xu, update_state_x. rewrite HA, HB.
  NormalizeFacts.vec5 x. destruct u as [u0 [u1 []]].
  split; cbn; repeat (apply (f_equal2 pair); [ring|]); reflexivity.
Qed.

(** X17.  Without a table, or with a table that does not hold the key of
    [(v, dt)], a non-zero sample time makes [set_v_dt] exponentiate: [Ad] and
    [Bd] are the upper blocks of the exponential of [dt * [[A, B], [0, 0]]],
    built from the [A] and [B] the same call stored, and the warning is
    printed exactly when the lower blocks fail the validation. *)
Theorem set_v_dt_exponentiates (b : object) (v dt : R) :
  factor_available b ->
  dt <> 0 ->
  m_discrete_state_space_map b = None
  \/ (exists table,
        m_discrete_state_space_map b = Some table
        /\ table !! make_state_space_map_key v dt = None) ->
  exists b' out,
    set_v_dt make_state_space_map_key g discretization_precision exp b v dt
    = Some (b', out)
    /\ m_Ad b'
       = topLeftCorner n n
           (exp (mscale dt (set_block (set_block (Zero (n + m) (n + m))
                                         0 0 (m_A b'))
                                      0 n (m_B b'))))
    /\ m_Bd b'
       = topRightCorner n m
           (exp (mscale dt (set_block (set_block (Zero (n + m) (n + m))
                                         0 0 (m_A b'))
                                      0 n (m_B b'))))
    /\ out
       = (if negb (isZero
                     (bottomLeftCorner m n
                        (exp (mscale dt
                                (set_block (set_block (Zero (n + m) (n + m))
                                              0 0 (m_A b'))
                                           0 n (m_B b')))))
                     discretization_precision)
             || negb (isIdentity
                        (bottomRightCorner m m
                           (exp (mscale dt
                                   (set_block
                                      (set_block (Zero (n + m) (n + m))
                                         0 0 (m_A b'))
                                      0 n (m_B b')))))
                        discretization_precision)
          then [Discretization_validation_failed v dt] else []).
Proof.
  intros Hf Hdt Hmiss.
  destruct (continuous_part_some b v dt Hf)
    as (b1 & E1 & _ & _ & _ & _ & _ & _ & _ & _ & _ & HT).
  rewrite set_v_dt_split, E1.
  assert (Hlook : discrete_state_space_lookup b1
                    (make_state_space_map_key v dt) = (false, b1)).
  { unfold discrete_state_space_lookup. rewrite HT.
    destruct Hmiss as [-> | (table & -> & ->)]; reflexivity. }
  unfold discrete_part.
  destruct (Req_dec_T dt 0) as [F|_]; [contradiction|].
  rewrite Hlook. cbv beta iota zeta. unfold augmented. cbn [fst snd].
  do 2 eexists. split; [reflexivity|].
  destruct b1. cbn. repeat split.
Qed.

(** X18.  The sample time plays no part in the continuous-time matrices:
    two calls of [set_v_dt] at the same speed leave the same [A], [B],
    stiffness and factor, whatever the two sample times. *)
Theorem set_v_dt_continuous_matrices (b : object) (v dt dt' : R) :
  factor_available b ->
  exists b1 out1 b2 out2,
    set_v_dt make_state_space_map_key g discretization_precision exp b v dt
    = Some (b1, out1)
    /\ set_v_dt make_state_space_map_key g discretization_precision exp
         b v dt'
       = Some (b2, out2)
    /\ m_A b1 = m_A b2 /\ m_B b1 = m_B b2 /\ m_K b1 = m_K b2
    /\ m_M_llt b1 = m_M_llt b2.
Proof.
  intros Hf.
  destruct (continuous_part_some b v dt Hf) as (c1 & E1 & _).
  rewrite !set_v_dt_split, (continuous_part_dt b v dt dt'), E1.
  do 4 eexists. split; [reflexivity|]. split; [reflexivity|].
  cbn [fst snd].
  rewrite (discrete_part_frame c1), (discrete_part_frame (with_v_dt_K _ _ _ _)).
  destruct c1. cbn. repeat split.
Qed.

Lemma continuous_part_v_dt (b b1 : object) (v dt : R) :
  continuous_part g b v dt = Some b1 -> m_v b1 = v /\ m_dt b1 = dt.
Proof.
  destruct b as [v0 dt0 M C1 K0 K2 K w c lam rr rf d1 d2 d3 f1 f2 llt
                 A0 B0 Ad1 Bd1 C0 D0 tbl].
  unfold continuous_part.
  destruct f1; [|destruct llt as [L|]; [|discriminate]];
    intros E; injection E as <-; split; reflexivity.
Qed.

(** Running the first half on its own result, whatever [Ad], [Bd] and the
    flag down, changes nothing. *)
Lemma continuous_part_again (b b1 : object) (v dt : R)
    (Ad : state_matrix_t) (Bd : input_matrix_t) :
  continuous_part g b v dt = Some b1 ->
  continuous_part g (with_recalculate_state_space (with_Ad_Bd b1 Ad Bd) false)
                  v dt
  = Some (with_recalculate_state_space (with_Ad_Bd b1 Ad Bd) false).
Proof.
  destruct b as [v0 dt0 M C1 K0 K2 K w c lam rr rf d1 d2 d3 f1 f2 llt
                 A0 B0 Ad1 Bd1 C0 D0 tbl].
  unfold continuous_part at 1.
  destruct f1; [|destruct llt as [L|]; [|discriminate]];
    intros E; injection E as <-;
    cbv beta iota zeta delta
      [continuous_part with_recalculate_state_space with_Ad_Bd
       m_recalculate_state_space initialize_state_space_matrices
       with_matrices with_v_dt_K with_A with_B m_M m_M_llt m_K m_K0 m_K2
       m_C1 m_A m_B m_Ad m_Bd m_lambda m_w m_c m_v m_dt m_C m_D m_rr m_rf
       m_d1 m_d2 m_d3 m_recalculate_moore_parameters
       m_discrete_state_space_map solve compute Nat.ltb Nat.leb o n m
       second_order_matrix_t].
  - generalize (solve_columns (llt_inplace M)
                  (madd (mscale g K0) (mscale (v * v) K2))).
    generalize (solve_columns (llt_inplace M) (mscale v C1)).
    generalize (inverse M).
    intros Z Y X. mat22 X. mat22 Y. mat22 Z. reflexivity.
  - generalize (solve_columns L (madd (mscale g K0) (mscale (v * v) K2))).
    generalize (solve_columns L (mscale v C1)).
    generalize (inverse M).
    intros Z Y X. BicycleFacts.mat55 A0. BicycleFacts.mat52 B0.
    mat22 X. mat22 Y. mat22 Z. reflexivity.
Qed.

Lemma discrete_part_again (b1 : object) (v dt : R)
    (Ad : state_matrix_t) (Bd : input_matrix_t) :
  discrete_part make_state_space_map_key discretization_precision exp
    (with_recalculate_state_space (with_Ad_Bd b1 Ad Bd) false) v dt
  = (with_recalculate_state_space
       (fst (discrete_part make_state_space_map_key
               discretization_precision exp b1 v dt)) false,
     snd (discrete_part make_state_space_map_key
            discretization_precision exp b1 v dt)).
Proof.
  unfold discrete_part.
  destruct (Req_dec_T dt 0); [destruct b1; reflexivity|].
  unfold discrete_state_space_lookup.
  destruct b1 as [v0 dt0 M C1 K0 K2 K w c lam rr rf d1 d2 d3 f1 f2 llt
                  A0 B0 Ad1 Bd1 C0 D0 tbl].
  cbn [with_recalculate_state_space with_Ad_Bd with_matrices
       m_discrete_state_space_map m_v m_dt m_M m_C1 m_K0 m_K2 m_K m_w m_c
       m_lambda m_rr m_rf m_d1 m_d2 m_d3 m_recalculate_state_space
       m_recalculate_moore_parameters m_M_llt m_A m_B m_Ad m_Bd m_C m_D].
  destruct tbl as [table|];
    [destruct (table !! make_state_space_map_key v dt) as [found|]|];
    reflexivity.
Qed.

(** X19.  The recompute of [src/bicycle.cc] is idempotent: after a
    successful [set_v_dt(v, dt)], [set_state_space()] returns the same
    object and prints the same. *)
Theorem set_state_space_after_set_v_dt (b b' : object) (v dt : R)
    (out : list message) :
  set_v_dt make_state_space_map_key g discretization_precision exp b v dt
  = Some (b', out) ->
  set_state_space make_state_space_map_key g discretization_precision exp b'
  = Some (b', out).
Proof.
  rewrite set_v_dt_split.
  destruct (continuous_part g b v dt) as [b1|] eqn:E1; [|discriminate].
  intros E. injection E as <- <-.
  destruct (continuous_part_v_dt b b1 v dt E1) as [Hv Hdt].
  rewrite discrete_part_frame.
  set (Ad := m_Ad _). set (Bd := m_Bd _).
  unfold set_state_space.
  replace (m_v (with_recalculate_state_space (with_Ad_Bd b1 Ad Bd) false))
    with v by (destruct b1; exact (eq_sym Hv)).
  replace (m_dt (with_recalculate_state_space (with_Ad_Bd b1 Ad Bd) false))
    with dt by (destruct b1; exact (eq_sym Hdt)).
  rewrite set_v_dt_split, (continuous_part_again b b1 v dt Ad Bd E1).
  rewrite discrete_part_again. cbn [fst snd].
  f_equal. f_equal.
  rewrite discrete_part_frame. fold Ad Bd.
  destruct b1. reflexivity.
Qed.

(** X20.  The overloads agree and the transition is linear: with a zero
    input [update_state(x, u)] is [update_state(x)] and
    [calculate_output(x, u)] is [calculate_output(x)], and the transition of
    a sum of states and inputs is the sum of the transitions. *)
Theorem update_state_superposition (b : object) (x x' : state_t)
    (u u' : input_t) :
  update_state_xu b x (vzero m) = update_state_x b x
  /\ calculate_output b x (vzero m) = calculate_output_x b x
  /\ update_state_xu b (vadd x x') (vadd u u')
     = vadd (update_state_xu b x u) (update_state_xu b x' u').
Proof.
  destruct b as [v0 dt0 M C1 K0 K2 K w c lam rr rf d1 d2 d3 f1 f2 llt
                 A0 B0 Ad1 Bd1 C0 D0 tbl].
  unfold update_state_xu, update_state_x, calculate_output,
    calculate_output_x.
  cbn [m_Ad m_Bd m_C m_D].
  NormalizeFacts.vec5 x. NormalizeFacts.vec5 x'.
  destruct u as [u0 [u1 []]]. destruct u' as [u0' [u1' []]].
  BicycleFacts.mat55 Ad1. BicycleFacts.mat52 Bd1.
  destruct C0 as [[c00 [c01 [c02 [c03 [c04 []]]]]]
                  [[c10 [c11 [c12 [c13 [c14 []]]]]] []]].
  mat22 D0.
  repeat match goal with |- _ /\ _ => split end; cbn;
    repeat (apply (f_equal2 pair); [ring|]); reflexivity.
Qed.

(** X21.  With the flag up and a symmetric positive definite mass matrix,
    [set_v_dt] leaves exactly the matrices of the comment in the source,
    whatever [A] and [B] held before: [A] is zero but for the two yaw-rate
    entries, the identity block and the blocks [-M^-1 (g K0 + v^2 K2)] and
    [-M^-1 (v C1)]; [B] is zero over [M^-1]. *)
Theorem set_v_dt_builds_documented_matrices (b : object) (v dt : R) :
  m_recalculate_state_space b = true ->
  spd (m_M b) ->
  exists b' out,
    set_v_dt make_state_space_map_key g discretization_precision exp b v dt
    = Some (b', out)
    /\ m_A b'
       = set_block
           (set_block
              (set_block
                 (mset (mset (Zero n n) 0 2 (v * cos (m_lambda b) / m_w b))
                       0 4 (m_c b * cos (m_lambda b) / m_w b))
                 1 3 (Identity o o))
              3 1
              (mopp (mmul (inverse (m_M b))
                          (madd (mscale g (m_K0 b))
                                (mscale (v * v) (m_K2 b))))))
           3 3 (mopp (mmul (inverse (m_M b)) (mscale v (m_C1 b))))
    /\ m_B b' = set_block (Zero n m) 3 0 (inverse (m_M b)).
Proof.
  intros Hflag HM. rewrite set_v_dt_split.
  assert (E1 : exists b1,
             continuous_part g b v dt = Some b1
             /\ m_A b1
                = set_block
                    (set_block
                       (set_block
                          (mset (mset (Zero n n) 0 2
                                      (v * cos (m_lambda b) / m_w b))
                                0 4 (m_c b * cos (m_lambda b) / m_w b))
                          1 3 (Identity o o))
                       3 1
                       (mopp (mmul (inverse (m_M b))
                                   (madd (mscale g (m_K0 b))
                                         (mscale (v * v) (m_K2 b))))))
                    3 3 (mopp (mmul (inverse (m_M b)) (mscale v (m_C1 b))))
             /\ m_B b1 = set_block (Zero n m) 3 0 (inverse (m_M b))).
  { destruct b as [v0 dt0 M C1 K0 K2 K w c lam rr rf d1 d2 d3 f1 f2 llt
                   A0 B0 Ad1 Bd1 C0 D0 tbl].
    cbn [m_recalculate_state_space m_M m_K0 m_K2 m_C1 m_lambda m_w m_c]
      in *.
    subst f1. unfold continuous_part.
    cbn [m_recalculate_state_space initialize_state_space_matrices
         with_matrices with_v_dt_K with_A with_B m_M m_M_llt m_K m_K0 m_K2
         m_C1 m_A m_B m_Ad m_Bd m_lambda m_w m_c m_v m_dt m_C m_D m_rr m_rf
         m_d1 m_d2 m_d3 m_recalculate_moore_parameters
         m_discrete_state_space_map].
    unfold second_order_matrix_t, o, n, m in *.
    rewrite !(BicycleFacts.solve_spd _ _ HM).
    cbn [Nat.ltb Nat.leb].
    generalize (mmul (inverse M) (madd (mscale g K0) (mscale (v * v) K2))).
    generalize (mmul (inverse M) (mscale v C1)).
    generalize (inverse M).
    intros Z Y X. mat22 X. mat22 Y. mat22 Z.
    eexists. split; [reflexivity|]. split; reflexivity. }
  destruct E1 as (b1 & E1 & HA & HB). rewrite E1.
  do 2 eexists. split; [reflexivity|].
  rewrite discrete_part_frame, <- HA, <- HB.
  destruct b1. split; reflexivity.
Qed.

End Facts.

End DiscreteBicycleMore.

(** ** Witnesses for the statements about [src/bicycle.cc] *)

Module DiscreteBicycleMoreWitnesses.
Import Eigen LLT DiscreteBicycle DiscreteBicycleMore Examples MoreExamples.

Lemma unit_discrete_bicycle_can_solve :
  factor_available unit_discrete_bicycle.
Proof. left. reflexivity. Qed.

Lemma plain_discrete_bicycle_can_solve :
  factor_available plain_discrete_bicycle.
Proof. left. reflexivity. Qed.

Lemma set_v_dt_total_witness :
  factor_available unit_discrete_bicycle
  /\ exists b' out,
       set_v_dt example_key (981 / 100) (1 / 1000000000000) (fun T => T)
                unit_discrete_bicycle vw dt
       = Some (b', out)
       /\ factor_available b'.
Proof.
  split; [exact unit_discrete_bicycle_can_solve|].
  destruct (set_v_dt_total example_key (981 / 100) (1 / 1000000000000)
              (fun T => T) unit_discrete_bicycle vw dt
              unit_discrete_bicycle_can_solve)
    as (b' & out & E & Hf & _).
  exists b', out. split; [exact E | exact Hf].
Defined.

Lemma zero_sample_time_holds_state_witness :
  factor_available unit_discrete_bicycle
  /\ exists b' out,
       set_v_dt example_key (981 / 100) (1 / 1000000000000) (fun T => T)
                unit_discrete_bicycle vw 0
       = Some (b', out)
       /\ update_state b' (1, (2, (3, (4, (5, tt))))) (6, (7, tt))
                       (8, (9, tt))
          = (1, (2, (3, (4, (5, tt))))).
Proof.
  split; [exact unit_discrete_bicycle_can_solve|].
  destruct (zero_sample_time_holds_state example_key (981 / 100)
              (1 / 1000000000000) (fun T => T) unit_discrete_bicycle vw
              (1, (2, (3, (4, (5, tt))))) (6, (7, tt)) (8, (9, tt))
              unit_discrete_bicycle_can_solve)
    as (b' & out & E & Hx & _).
  exists b', out. split; [exact E | exact Hx].
Defined.

Lemma set_v_dt_exponentiates_witness :
  factor_available plain_discrete_bicycle
  /\ dt <> 0
  /\ m_discrete_state_space_map plain_discrete_bicycle = None
  /\ exists b' out,
       set_v_dt example_key (981 / 100) (1 / 1000000000000) (fun T => T)
                plain_discrete_bicycle 1 dt
       = Some (b', out)
       /\ m_Ad b'
          = topLeftCorner n n
              ((fun T : discretization_matrix_t => T)
                 (mscale dt (set_block (set_block (Zero (n + m) (n + m))
                                          0 0 (m_A b'))
                                       0 n (m_B b')))).
Proof.
  split; [exact plain_discrete_bicycle_can_solve|].
  split; [exact DiscreteBicycleWitnesses.dt_nonzero|].
  split; [reflexivity|].
  destruct (set_v_dt_exponentiates example_key (981 / 100)
              (1 / 1000000000000) (fun T => T) plain_discrete_bicycle 1 dt
              plain_discrete_bicycle_can_solve
              DiscreteBicycleWitnesses.dt_nonzero (or_introl eq_refl))
    as (b' & out & E & HA & _).
  exists b', out. split; [exact E | exact HA].
Defined.

Lemma set_v_dt_continuous_matrices_witness :
  factor_available unit_discrete_bicycle
  /\ exists b1 out1 b2 out2,
       set_v_dt example_key (981 / 100) (1 / 1000000000000) (fun T => T)
                unit_discrete_bicycle vw dt
       = Some (b1, out1)
       /\ set_v_dt example_key (981 / 100) (1 / 1000000000000) (fun T => T)
                   unit_discrete_bicycle vw 0
          = Some (b2, out2)
       /\ m_A b1 = m_A b2.
Proof.
  split; [exact unit_discrete_bicycle_can_solve|].
  destruct (set_v_dt_continuous_matrices example_key (981 / 100)
              (1 / 1000000000000) (fun T => T) unit_discrete_bicycle vw dt 0
              unit_discrete_bicycle_can_solve)
    as (b1 & out1 & b2 & out2 & E1 & E2 & HA & _).
  exists b1, out1, b2, out2. split; [exact E1|]. split; [exact E2 | exact HA].
Defined.

Lemma set_state_space_after_set_v_dt_witness :
  exists b' out,
    set_v_dt example_key (981 / 100) (1 / 1000000000000) (fun T => T)
             plain_discrete_bicycle 1 dt
    = Some (b', out)
    /\ set_state_space example_key (981 / 100) (1 / 1000000000000)
         (fun T => T) b'
       = Some (b', out).
Proof.
  destruct (set_v_dt_some example_key (981 / 100) (1 / 1000000000000)
              (fun T => T) plain_discrete_bicycle 1 dt
              plain_discrete_bicycle_can_solve)
    as (b' & out & E & _).
  exists b', out. split; [exact E|].
  exact (set_state_space_after_set_v_dt example_key (981 / 100)
           (1 / 1000000000000) (fun T => T) plain_discrete_bicycle b' 1 dt
           out E).
Defined.

Lemma spd_plain_discrete_bicycle : spd (m_M plain_discrete_bicycle).
Proof. exact BicycleFacts.spd_Identity. Qed.

Lemma set_v_dt_builds_documented_matrices_witness :
  m_recalculate_state_space plain_discrete_bicycle = true
  /\ spd (m_M plain_discrete_bicycle)
  /\ exists b' out,
       set_v_dt example_key (981 / 100) (1 / 1000000000000) (fun T => T)
                plain_discrete_bicycle 1 dt
       = Some (b', out)
       /\ m_B b'
          = set_block (Zero n m) 3 0 (inverse (m_M plain_discrete_bicycle)).
Proof.
  split; [reflexivity|]. split; [exact spd_plain_discrete_bicycle|].
  destruct (set_v_dt_builds_documented_matrices example_key (981 / 100)
              (1 / 1000000000000) (fun T => T) plain_discrete_bicycle 1 dt
              eq_refl spd_plain_discrete_bicycle)
    as (b' & out & E & _ & HB).
  exists b', out. split; [exact E | exact HB].
Defined.

End DiscreteBicycleMoreWitnesses.

(** ** The kinematic model of [src/bicycle/kinematic.cc] *)

Module BicycleKinematicFacts.
Import Eigen BicycleKinematic.

Section Facts.

Context {state_space_map_key_t : Type}.
Context `{Countable state_space_map_key_t}.
Variable get_output_element :
  DiscreteBicycle.output_t -> Bicycle.output_index_t -> R.
Variable get_state_element :
  DiscreteBicycle.state_t -> Bicycle.state_index_t -> R.
Variable set_state_element :
  DiscreteBicycle.state_t -> Bicycle.state_index_t -> R ->
  DiscreteBicycle.state_t.

Local Abbreviation object :=
  (DiscreteBicycle.t (state_space_map_key_t := state_space_map_key_t)).
Local Abbreviation step :=
  (update_state get_output_element get_state_element set_state_element).

Ltac hide_next_roll :=
  repeat match goal with
  | |- context [- ?a / ?c * ?d] =>
      let r := fresh "next_roll" in
      generalize (- a / c * d); intro r
  end.

Ltac read_back Hsame Hother :=
  repeat first
    [ rewrite Hsame
    | rewrite Hother by discriminate ].

(** X22.  The kinematic [update_state] takes yaw and steer angle from the
    measurement, puts the roll angle where the first row of the stiffness
    matrix balances ([K(0,0)*roll + K(0,1)*steer = 0]), makes the two rates
    the finite differences over the sample time, and ignores the input. *)
Theorem kinematic_update_state (b : object) (x : DiscreteBicycle.state_t)
    (u : DiscreteBicycle.input_t) (z : DiscreteBicycle.output_t) :
  element_access get_state_element set_state_element ->
  get_state_element (step b x u z) Bicycle.yaw_angle
  = get_output_element z Bicycle.output_yaw_angle
  /\ get_state_element (step b x u z) Bicycle.steer_angle
     = get_output_element z Bicycle.output_steer_angle
  /\ (mget (DiscreteBicycle.m_K b) 0 0 <> 0 ->
      mget (DiscreteBicycle.m_K b) 0 0
      * get_state_element (step b x u z) Bicycle.roll_angle
      + mget (DiscreteBicycle.m_K b) 0 1
        * get_state_element (step b x u z) Bicycle.steer_angle
      = 0)
  /\ (DiscreteBicycle.m_dt b <> 0 ->
      get_state_element (step b x u z) Bicycle.roll_rate
      * DiscreteBicycle.m_dt b
      = get_state_element (step b x u z) Bicycle.roll_angle
        - get_state_element x Bicycle.roll_angle
      /\ get_state_element (step b x u z) Bicycle.steer_rate
         * DiscreteBicycle.m_dt b
         = get_state_element (step b x u z) Bicycle.steer_angle
           - get_state_element x Bicycle.steer_angle)
  /\ (forall u' : DiscreteBicycle.input_t, step b x u' z = step b x u z).
Proof.
  intros [Hsame Hother]. unfold update_state.
  repeat match goal with |- _ /\ _ => split end.
  - read_back Hsame Hother. reflexivity.
  - read_back Hsame Hother. reflexivity.
  - intros HK. read_back Hsame Hother. field. exact HK.
  - intros Hdt. read_back Hsame Hother. hide_next_roll.
    split; field; exact Hdt.
  - reflexivity.
Qed.

(** X23.  Fed the same measurement twice, the kinematic model comes to
    rest: the second step returns the angles of the first and zero rates. *)
Theorem kinematic_update_state_settles (b : object)
    (x : DiscreteBicycle.state_t) (u u' : DiscreteBicycle.input_t)
    (z : DiscreteBicycle.output_t) :
  element_access get_state_element set_state_element ->
  DiscreteBicycle.m_dt b <> 0 ->
  get_state_element (step b (step b x u z) u' z) Bicycle.roll_rate = 0
  /\ get_state_element (step b (step b x u z) u' z) Bicycle.steer_rate = 0
  /\ get_state_element (step b (step b x u z) u' z) Bicycle.yaw_angle
     = get_state_element (step b x u z) Bicycle.yaw_angle
  /\ get_state_element (step b (step b x u z) u' z) Bicycle.roll_angle
     = get_state_element (step b x u z) Bicycle.roll_angle
  /\ get_state_element (step b (step b x u z) u' z) Bicycle.steer_angle
     = get_state_element (step b x u z) Bicycle.steer_angle.
Proof.
  intros [Hsame Hother] Hdt. unfold update_state.
  repeat match goal with |- _ /\ _ => split end;
    read_back Hsame Hother; try reflexivity; hide_next_roll; field;
    exact Hdt.
Qed.

End Facts.

Lemma element_access_vget :
  element_access MoreExamples.get_element MoreExamples.set_element.
Proof.
  split.
  - intros x i a. NormalizeFacts.vec5 x. destruct i; reflexivity.
  - intros x i j a Hij. NormalizeFacts.vec5 x.
    destruct i, j; try reflexivity; contradiction.
Qed.

Lemma dt_kinematic_nonzero :
  DiscreteBicycle.m_dt MoreExamples.kinematic_bicycle <> 0.
Proof. cbn. lra. Qed.

Lemma kinematic_update_state_witness :
  element_access MoreExamples.get_element MoreExamples.set_element
  /\ MoreExamples.get_element
       (update_state MoreExamples.get_output MoreExamples.get_element
          MoreExamples.set_element MoreExamples.kinematic_bicycle
          (0, (0, (0, (0, (0, tt))))) (0, (0, tt)) (1, (2, tt)))
       Bicycle.yaw_angle
     = MoreExamples.get_output (1, (2, tt)) Bicycle.output_yaw_angle.
Proof.
  split; [exact element_access_vget|].
  exact (proj1 (kinematic_update_state MoreExamples.get_output
                  MoreExamples.get_element MoreExamples.set_element
                  MoreExamples.kinematic_bicycle
                  (0, (0, (0, (0, (0, tt))))) (0, (0, tt)) (1, (2, tt))
                  element_access_vget)).
Defined.

Lemma kinematic_update_state_settles_witness :
  element_access MoreExamples.get_element MoreExamples.set_element
  /\ DiscreteBicycle.m_dt MoreExamples.kinematic_bicycle <> 0
  /\ MoreExamples.get_element
       (update_state MoreExamples.get_output MoreExamples.get_element
          MoreExamples.set_element MoreExamples.kinematic_bicycle
          (update_state MoreExamples.get_output MoreExamples.get_element
             MoreExamples.set_element MoreExamples.kinematic_bicycle
             (0, (0, (0, (0, (0, tt))))) (0, (0, tt)) (1, (2, tt)))
          (5, (5, tt)) (1, (2, tt)))
       Bicycle.roll_rate
     = 0.
Proof.
  split; [exact element_access_vget|].
  split; [exact dt_kinematic_nonzero|].
  exact (proj1 (kinematic_update_state_settles MoreExamples.get_output
                  MoreExamples.get_element MoreExamples.set_element
                  MoreExamples.kinematic_bicycle
                  (0, (0, (0, (0, (0, tt))))) (0, (0, tt)) (5, (5, tt))
                  (1, (2, tt)) element_access_vget dt_kinematic_nonzero)).
Defined.

End BicycleKinematicFacts.

(** ** The symmetric layouts of [inc/sample_util.h] *)

Module SampleUtilFacts.
Import Eigen SampleUtil.

Ltac mat33 A :=
  destruct A as [[?a00 [?a01 [?a02 []]]] [[?a10 [?a11 [?a12 []]]]
                 [[?a20 [?a21 [?a22 []]]] []]]].

(** X24.  The symmetric layouts keep the diagonal and what is above it.
    Two 5x5 matrices that agree there are laid out the same by
    [symmetric_state_matrix], whatever is below the diagonal; and two
    symmetric matrices with the same layout are equal, for
    [symmetric_state_matrix], [symmetric_output_matrix] and
    [symmetric_input_matrix]: nothing of a covariance matrix is lost. *)
Theorem symmetric_layouts :
  (forall m1 m2 : mat 5 5,
      (forall i j : nat, (i <= j)%nat -> mget m1 i j = mget m2 i j) ->
      symmetric_state_matrix m1 = symmetric_state_matrix m2)
  /\ (forall m1 m2 : mat 5 5,
        transpose m1 = m1 -> transpose m2 = m2 ->
        symmetric_state_matrix m1 = symmetric_state_matrix m2 -> m1 = m2)
  /\ (forall m1 m2 : mat 3 3,
        transpose m1 = m1 -> transpose m2 = m2 ->
        symmetric_output_matrix m1 = symmetric_output_matrix m2 -> m1 = m2)
  /\ (forall m1 m2 : mat 2 2,
        transpose m1 = m1 -> transpose m2 = m2 ->
        symmetric_input_matrix m1 = symmetric_input_matrix m2 -> m1 = m2).
Proof.
  repeat match goal with |- _ /\ _ => split end; intros m1 m2.
  - BicycleFacts.mat55 m1. BicycleFacts.mat55 m2.
    unfold symmetric_state_matrix. cbn. intros Hup.
    repeat apply (f_equal2 pair); try reflexivity.
    all: first
      [ exact (Hup 0%nat 0%nat ltac:(lia)) | exact (Hup 0%nat 1%nat ltac:(lia))
      | exact (Hup 0%nat 2%nat ltac:(lia)) | exact (Hup 0%nat 3%nat ltac:(lia))
      | exact (Hup 0%nat 4%nat ltac:(lia)) | exact (Hup 1%nat 1%nat ltac:(lia))
      | exact (Hup 1%nat 2%nat ltac:(lia)) | exact (Hup 1%nat 3%nat ltac:(lia))
      | exact (Hup 1%nat 4%nat ltac:(lia)) | exact (Hup 2%nat 2%nat ltac:(lia))
      | exact (Hup 2%nat 3%nat ltac:(lia)) | exact (Hup 2%nat 4%nat ltac:(lia))
      | exact (Hup 3%nat 3%nat ltac:(lia)) | exact (Hup 3%nat 4%nat ltac:(lia))
      | exact (Hup 4%nat 4%nat ltac:(lia)) ].
  - BicycleFacts.mat55 m1. BicycleFacts.mat55 m2.
    unfold symmetric_state_matrix. cbn.
    intros H1 H2 E. injection H1 as. injection H2 as. injection E as.
    subst. reflexivity.
  - mat33 m1. mat33 m2. unfold symmetric_output_matrix. cbn.
    intros H1 H2 E. injection H1 as. injection H2 as. injection E as.
    subst. reflexivity.
  - LLTFacts.mat22 m1. LLTFacts.mat22 m2. unfold symmetric_input_matrix. cbn.
    intros H1 H2 E. injection H1 as. injection H2 as. injection E as.
    subst. reflexivity.
Qed.

End SampleUtilFacts.
